(** * LS-8 emulator: a shallow embedding of [cpu.py] and its properties

    The Python class [CPU] of [cpu.py] is embedded as a record of its
    attributes together with the lines written on standard output.  Python
    integers are unbounded, so every integer attribute is a [Z]; the two
    lists [ram] and [reg] are [list Z], indexed the way Python indexes a
    list (negative indices count from the end, anything else out of range
    raises [IndexError]).  Methods are computations in a small monad that
    threads the object and can stop with one of the exceptions the loop can
    raise: [IndexError], [SystemExit], and the [ValueError] of the
    interpreter when an integer too long for its integer-to-string limit is
    formatted in decimal. *)

From Stdlib Require Import ZArith Lia Bool.
From stdpp Require Import base tactics option list gmap strings pretty.

Local Open Scope Z_scope.

(** ** Opcodes (cpu.py, lines 4-16) *)

Definition HLT : Z := 0x01.  (* 0b00000001 *)
Definition LDI : Z := 0x82.  (* 0b10000010 *)
Definition PRN : Z := 0x47.  (* 0b01000111 *)
Definition MUL : Z := 0xA2.  (* 0b10100010 *)
Definition PUSH : Z := 0x45. (* 0b01000101 *)
Definition POP : Z := 0x46.  (* 0b01000110 *)
Definition CALL : Z := 0x50. (* 0b01010000 *)
Definition RET : Z := 0x11.  (* 0b00010001 *)
Definition ADD : Z := 0xA0.  (* 0b10100000 *)
Definition CMP : Z := 0xA7.  (* 0b10100111 *)
Definition JMP : Z := 0x54.  (* 0b01010100 *)
Definition JEQ : Z := 0x55.  (* 0b01010101 *)
Definition JNE : Z := 0x56.  (* 0b01010110 *)

(** ** Machine state (CPU.__init__, lines 22-35) *)

Record CPU : Type := mkCPU {
  ram : list Z;        (* self.ram *)
  reg : list Z;        (* self.reg *)
  pc : Z;              (* self.pc *)
  ir : Z;              (* self.ir *)
  mar : Z;             (* self.mar *)
  mdr : Z;             (* self.mdr *)
  fl : Z;              (* self.fl *)
  halted : bool;       (* self.halted *)
  stdout : list string (* the lines printed so far, oldest first *)
}.

Definition set_ram (v : list Z) (c : CPU) : CPU :=
  mkCPU v (reg c) (pc c) (ir c) (mar c) (mdr c) (fl c) (halted c) (stdout c).
Definition set_reg (v : list Z) (c : CPU) : CPU :=
  mkCPU (ram c) v (pc c) (ir c) (mar c) (mdr c) (fl c) (halted c) (stdout c).
Definition set_pc (v : Z) (c : CPU) : CPU :=
  mkCPU (ram c) (reg c) v (ir c) (mar c) (mdr c) (fl c) (halted c) (stdout c).
Definition set_ir (v : Z) (c : CPU) : CPU :=
  mkCPU (ram c) (reg c) (pc c) v (mar c) (mdr c) (fl c) (halted c) (stdout c).
Definition set_mdr (v : Z) (c : CPU) : CPU :=
  mkCPU (ram c) (reg c) (pc c) (ir c) (mar c) v (fl c) (halted c) (stdout c).
Definition set_fl (v : Z) (c : CPU) : CPU :=
  mkCPU (ram c) (reg c) (pc c) (ir c) (mar c) (mdr c) v (halted c) (stdout c).
Definition set_halted (v : bool) (c : CPU) : CPU :=
  mkCPU (ram c) (reg c) (pc c) (ir c) (mar c) (mdr c) (fl c) v (stdout c).
Definition set_stdout (v : list string) (c : CPU) : CPU :=
  mkCPU (ram c) (reg c) (pc c) (ir c) (mar c) (mdr c) (fl c) (halted c) v.

(** [CPU()]: 256 zeroed cells, 8 zeroed registers, [reg[7] = 0xF4]. *)
Definition init : CPU :=
  mkCPU (replicate 256 0) (<[7%nat := 0xF4]> (replicate 8 0))
        0 0 0 0 0 false [].

(** ** Python list indexing *)

(** The position a Python list of length [n] gives to index [i]:
    [0 <= i < n] is itself, [-n <= i < 0] counts from the end, anything
    else is out of range. *)
Definition py_index (n i : Z) : option nat :=
  if decide (0 <= i < n) then Some (Z.to_nat i)
  else if decide (- n <= i < 0) then Some (Z.to_nat (i + n))
  else None.

(** [l[i]] *)
Definition list_getitem (l : list Z) (i : Z) : option Z :=
  match py_index (Z.of_nat (length l)) i with
  | Some k => l !! k
  | None => None
  end.

(** [l[i] = v] *)
Definition list_setitem (l : list Z) (i v : Z) : option (list Z) :=
  match py_index (Z.of_nat (length l)) i with
  | Some k => Some (<[k := v]> l)
  | None => None
  end.

(** ** Outcomes and the method monad *)

Inductive outcome (A : Type) : Type :=
| Return (a : A) (c : CPU)          (* normal return *)
| IndexError (c : CPU)              (* list index out of range *)
| SystemExit (code : Z) (c : CPU)   (* sys.exit(code) *)
| ValueError (c : CPU).             (* str() of an integer over the limit *)
Arguments Return {A} a c.
Arguments IndexError {A} c.
Arguments SystemExit {A} code c.
Arguments ValueError {A} c.

(** The object as the outcome leaves it. *)
Definition state_of {A} (o : outcome A) : CPU :=
  match o with
  | Return _ c => c
  | IndexError c => c
  | SystemExit _ c => c
  | ValueError c => c
  end.

Definition M (A : Type) : Type := CPU -> outcome A.

Definition ret {A} (a : A) : M A := fun c => Return a c.

Definition bind {A B} (m : M A) (k : A -> M B) : M B := fun c =>
  match m c with
  | Return a c' => k a c'
  | IndexError c' => IndexError c'
  | SystemExit n c' => SystemExit n c'
  | ValueError c' => ValueError c'
  end.

Notation "'let*' x ':=' m 'in' k" := (bind m (fun x => k))
  (at level 10, x name, m at level 100, k at level 200).
Notation "m ';;' k" := (bind m (fun _ => k))
  (at level 100, k at level 200, right associativity).

Definition gets {A} (f : CPU -> A) : M A := fun c => Return (f c) c.
Definition modify (f : CPU -> CPU) : M unit := fun c => Return tt (f c).
Definition raise_IndexError {A} : M A := fun c => IndexError c.
Definition raise_ValueError {A} : M A := fun c => ValueError c.
Definition sys_exit {A} (code : Z) : M A := fun c => SystemExit code c.

(** [print(s)] *)
Definition print (s : string) : M unit :=
  modify (fun c => set_stdout (stdout c ++ [s]) c).

(** ** Integers as decimal text

    [str(v)], as [print(v)] and an f-string field [{v}] compute it.  CPython
    refuses the conversion, with [ValueError], when the decimal text would
    have more digits than [sys.get_int_max_str_digits()], 4300 unless the
    interpreter is configured otherwise; the sign does not count.  (The
    hexadecimal [%X] of [trace] has no such limit.) *)
Definition max_str_digits : Z := 4300.

(** [abs(v) < 10 ** max_str_digits].  The binary length settles all values
    but those between [2^14276] and [2^14319], so that the power is only
    computed for them (lemma [int_str_ok_spec] below). *)
Definition int_str_ok (v : Z) : bool :=
  let n := Z.log2 (Z.abs v) in
  if n <? 14276 then true
  else if 14319 <=? n then false
  else Z.abs v <? 10 ^ max_str_digits.

Definition format_int (v : Z) : M string :=
  if int_str_ok v then ret (pretty v) else raise_ValueError.

(** [self.reg[i]] and [self.reg[i] = v] *)
Definition reg_getitem (i : Z) : M Z := fun c =>
  match list_getitem (reg c) i with
  | Some v => Return v c
  | None => IndexError c
  end.

Definition reg_setitem (i v : Z) : M unit := fun c =>
  match list_setitem (reg c) i v with
  | Some l => Return tt (set_reg l c)
  | None => IndexError c
  end.

(** ** Properties (lines 58-80) *)

Definition sp : M Z := reg_getitem 7.

Definition sp_setter (a : Z) : M unit := reg_setitem 7 (Z.land a 0xFF).

(** The line [ram_read] and [ram_write] print for [mar]. *)
Definition read_error (mar : Z) : string :=
  "Error with read from memory address: " +:+ pretty mar.

(** lines 84-90 *)
Definition ram_read (mar : Z) : M Z :=
  let* r := gets ram in
  if (0 <=? mar) && (mar <? Z.of_nat (length r)) then
    match list_getitem r mar with
    | Some v => ret v
    | None => raise_IndexError
    end
  else
    let* s := format_int mar in
    print ("Error with read from memory address: " +:+ s) ;;
    ret (-1).

(** lines 92-97; the message of the failing branch is the one of
    [ram_read], as in the source. *)
Definition ram_write (mar mdr : Z) : M unit :=
  let* r := gets ram in
  if (0 <=? mar) && (mar <? Z.of_nat (length r)) then
    match list_setitem r mar (Z.land mdr 0xFF) with
    | Some r' => modify (set_ram r')
    | None => raise_IndexError
    end
  else
    let* s := format_int mar in
    print ("Error with read from memory address: " +:+ s).

Definition op_a : M Z :=
  let* p := gets pc in ram_read (p + 1).

Definition op_b : M Z :=
  let* p := gets pc in ram_read (p + 2).

Definition instruction_size : M Z :=
  let* i := gets ir in ret (Z.land (Z.shiftr i 6) 3 + 1).

Definition instruction_sets_pc : M bool :=
  let* i := gets ir in ret (Z.land (Z.shiftr i 4) 1 =? 1).

(** ** The loader (lines 99-117)

    The file is read and each line parsed outside this model; [load]
    receives the integers [int(num, 2)] produced, in order.  A store past
    the end of [ram] raises [IndexError], which the bare [except] of the
    source swallows without advancing [address]. *)
Fixpoint load_from (address : nat) (program : list Z) (r : list Z) : list Z :=
  match program with
  | [] => r
  | instruction :: rest =>
      if decide (address < length r)%nat
      then load_from (S address) rest (<[address := instruction]> r)
      else load_from address rest r
  end.

Definition load (program : list Z) (c : CPU) : CPU :=
  set_ram (load_from 0 program (ram c)) c.

(** ** Instruction handlers (lines 167-222) *)

Definition process_HLT : M unit :=
  modify (set_halted true).

(** [self.reg[self.op_a] = self.op_b]: the right-hand side first. *)
Definition process_LDI : M unit :=
  let* v := op_b in
  let* a := op_a in
  reg_setitem a v.

Definition process_PRN : M unit :=
  let* a := op_a in
  let* v := reg_getitem a in
  let* s := format_int v in
  print s.

(** [self.reg[self.op_a] *= self.reg[self.op_b]]: the subscript is
    evaluated once, the old value read, then the right-hand side. *)
Definition process_MUL : M unit :=
  let* a := op_a in
  let* x := reg_getitem a in
  let* b := op_b in
  let* y := reg_getitem b in
  reg_setitem a (x * y).

Definition process_PUSH : M unit :=
  (let* s := sp in sp_setter (s - 1)) ;;
  let* a := op_a in
  let* v := reg_getitem a in
  modify (set_mdr v) ;;
  let* s := sp in
  let* d := gets mdr in
  ram_write s d.

Definition process_POP : M unit :=
  let* s := sp in
  let* v := ram_read s in
  modify (set_mdr v) ;;
  let* d := gets mdr in
  let* a := op_a in
  reg_setitem a d ;;
  let* s := sp in sp_setter (s + 1).

Definition process_CALL : M unit :=
  (let* s := sp in sp_setter (s - 1)) ;;
  let* s := sp in
  let* p := gets pc in
  let* n := instruction_size in
  ram_write s (p + n) ;;
  let* a := op_a in
  let* v := reg_getitem a in
  modify (set_pc v).

Definition process_RET : M unit :=
  let* s := sp in
  let* v := ram_read s in
  modify (set_pc v) ;;
  let* s := sp in sp_setter (s + 1).

Definition process_ADD : M unit :=
  let* a := op_a in
  let* x := reg_getitem a in
  let* b := op_b in
  let* y := reg_getitem b in
  reg_setitem a (x + y).

Definition process_CMP : M unit :=
  let* a := op_a in
  let* x := reg_getitem a in
  let* b := op_b in
  let* y := reg_getitem b in
  if x <? y then modify (set_fl 4)
  else
    let* a := op_a in
    let* x := reg_getitem a in
    let* b := op_b in
    let* y := reg_getitem b in
    if x >? y then modify (set_fl 2)
    else modify (set_fl 1).

Definition process_JMP : M unit :=
  let* a := op_a in
  let* v := reg_getitem a in
  modify (set_pc v).

Definition process_JEQ : M unit :=
  let* f := gets fl in
  if f =? 1 then process_JMP
  else
    let* p := gets pc in
    let* n := instruction_size in
    modify (set_pc (p + n)).

Definition process_JNE : M unit :=
  let* f := gets fl in
  if negb (f =? 1) then process_JMP
  else
    let* p := gets pc in
    let* n := instruction_size in
    modify (set_pc (p + n)).

(** ** Branch table (lines 38-51) *)

Definition branchtable : gmap Z (M unit) :=
  <[JNE := process_JNE]> (
  <[JEQ := process_JEQ]> (
  <[JMP := process_JMP]> (
  <[CMP := process_CMP]> (
  <[ADD := process_ADD]> (
  <[RET := process_RET]> (
  <[CALL := process_CALL]> (
  <[POP := process_POP]> (
  <[PUSH := process_PUSH]> (
  <[MUL := process_MUL]> (
  <[PRN := process_PRN]> (
  <[LDI := process_LDI]> (
  <[HLT := process_HLT]> ∅)))))))))))).

(** ** The execution loop (CPU.run, lines 144-155) *)

(** The line [run] prints for an instruction [i] it does not know. *)
Definition no_instruction (i : Z) : string :=
  "Error: Could not find instruction " +:+ pretty i +:+ ".".

(** line 147 *)
Definition fetch : M unit :=
  let* p := gets pc in
  let* i := ram_read p in
  modify (set_ir i).

(** lines 148-152 *)
Definition dispatch : M unit :=
  let* i := gets ir in
  match branchtable !! i with
  | Some handler => handler
  | None =>
      let* s := format_int i in
      print ("Error: Could not find instruction " +:+ s +:+ ".") ;;
      sys_exit 1
  end.

(** lines 154-155 *)
Definition advance : M unit :=
  let* s := instruction_sets_pc in
  if negb s then
    let* p := gets pc in
    let* n := instruction_size in
    modify (set_pc (p + n))
  else ret tt.

(** One iteration of the body of the [while] loop. *)
Definition cycle : M unit :=
  fetch ;; dispatch ;; advance.

(** [run]: the loop, bounded by [fuel] iterations; [None] when the fuel
    ran out with the machine still running. *)
Fixpoint run (fuel : nat) (c : CPU) : option (outcome unit) :=
  if halted c then Some (Return tt c)
  else
    match fuel with
    | O => None
    | S n =>
        match cycle c with
        | Return _ c' => run n c'
        | e => Some e
        end
    end.

(** ls8.py: [cpu = CPU(); cpu.load(file_name); cpu.run()] *)
Definition ls8 (fuel : nat) (program : list Z) : option (outcome unit) :=
  run fuel (load program init).

(** What the caller of the process observes: the exit status (0 for a
    normal return, 1 for an uncaught exception) and the lines printed. *)
Definition report {A} (o : outcome A) : Z * list string :=
  match o with
  | Return _ c => (0, stdout c)
  | IndexError c => (1, stdout c)
  | SystemExit code c => (code, stdout c)
  | ValueError c => (1, stdout c)
  end.

(** ** Well-formed machines *)

(** The shape [__init__] gives the two lists; no method changes it. *)
Definition wf (c : CPU) : Prop :=
  length (ram c) = 256%nat /\ length (reg c) = 8%nat.

(** Every memory cell is an 8-bit value. *)
Definition ram_8bit (c : CPU) : Prop :=
  Forall (fun v => 0 <= v < 256) (ram c).

(** * Vocabulary of the statements *)

(** ** Operands and sample programs *)

(** The operand bytes of the instruction at [pc] are [a] and [b]. *)
Definition operands (c : CPU) (a b : Z) : Prop :=
  0 <= pc c /\
  ram c !! Z.to_nat (pc c + 1) = Some a /\
  ram c !! Z.to_nat (pc c + 2) = Some b.

(** The program [LDI R0,200; LDI R1,100; ADD R0,R1; PRN R0; HLT]. *)
Definition add_overflow_program : list Z :=
  [LDI; 0; 200; LDI; 1; 100; ADD; 0; 1; PRN; 0; HLT].

(** The program [LDI R0,16; LDI R1,16; MUL R0,R1; PRN R0; HLT]. *)
Definition mul_overflow_program : list Z :=
  [LDI; 0; 16; LDI; 1; 16; MUL; 0; 1; PRN; 0; HLT].


(** A 256-byte image: [LDI R0,9; LDI R1,254; JMP R1; HLT; RET] at 0..9 and
    [CALL R0] in the last two cells. *)
Definition call_at_254_program : list Z :=
  [LDI; 0; 9; LDI; 1; 254; JMP; 1; HLT; RET] ++ replicate 244 0 ++ [CALL; 0].

(** The program [LDI R0,2; MUL R0,R0] (fourteen times) [; JMP R0]: 47
    bytes that leave [2^16384] in R0 and jump there. *)
Definition huge_pc_program : list Z :=
  [LDI; 0; 2] ++ concat (replicate 14 [MUL; 0; 0]) ++ [JMP; 0].

(** The program [LDI R0,11; LDI R1,11; CMP R0,R1; JEQ R0; HLT], the HLT
    being at address 11. *)
Definition cmp_jeq_program : list Z :=
  [LDI; 0; 11; LDI; 1; 11; CMP; 0; 1; JEQ; 0; HLT].

(** ** Outcomes that end the execution *)


(** ** Relations between the object before and after a method *)

Definition respects {A} (R : CPU -> CPU -> Prop) (m : M A) : Prop :=
  forall c, R c (state_of (m c)).

Definition same_pc (c c' : CPU) : Prop := pc c' = pc c.

Definition same_ir (c c' : CPU) : Prop := ir c' = ir c.

Definition same_fl (c c' : CPU) : Prop := fl c' = fl c.

(** [fl] is left alone or set to one of the three flag values. *)
Definition fl_step (c c' : CPU) : Prop :=
  fl c' = fl c \/ fl c' = 1 \/ fl c' = 2 \/ fl c' = 4.

Definition machine_ok (c : CPU) : Prop := wf c /\ ram_8bit c.

Definition keeps_ok (c c' : CPU) : Prop := machine_ok c -> machine_ok c'.

(** ** The branch table as a list, and iterated cycles *)

(** The entries of [branchtable], in the order [__init__] inserts them. *)
Definition handlers : list (Z * M unit) :=
  [ (HLT, process_HLT); (LDI, process_LDI); (PRN, process_PRN);
    (MUL, process_MUL); (PUSH, process_PUSH); (POP, process_POP);
    (CALL, process_CALL); (RET, process_RET); (ADD, process_ADD);
    (CMP, process_CMP); (JMP, process_JMP); (JEQ, process_JEQ);
    (JNE, process_JNE) ].

(** [n] iterations of the loop body, for machines that do not halt
    meanwhile. *)
Fixpoint cycles (n : nat) : M unit :=
  match n with
  | O => ret tt
  | S k => cycle ;; cycles k
  end.

(** The states the loop goes through from [c0]: the state at the top of
    each iteration and the state in which an exception leaves the object. *)
Inductive reachable (c0 : CPU) : CPU -> Prop :=
| reachable_start : reachable c0 c0
| reachable_cycle (c : CPU) :
    reachable c0 c -> halted c = false -> reachable c0 (state_of (cycle c)).

(** ** The program counter a control-flow handler leaves *)

(** The value [ram_read] returns for address [mar] of memory [r]: the cell,
    or -1 outside the array. *)
Definition peek (r : list Z) (mar : Z) : Z :=
  if (0 <=? mar) && (mar <? Z.of_nat (length r))
  then default (-1) (list_getitem r mar)
  else -1.


(** [c2] is the state in which the handler of the sets-PC opcode in
    [ir c1] returns when started in [c1], as far as PC goes: JMP leaves
    in PC the register named by the operand byte; JEQ does so when [fl] is
    1 and leaves PC + 2 otherwise; JNE the other way round; CALL leaves the
    register named by the operand byte, both read once SP is decremented and
    the return address stored; RET leaves the cell SP addressed. *)
Definition pc_set_by_handler (c1 c2 : CPU) : Prop :=
  (ir c1 = JMP
   /\ list_getitem (reg c1) (peek (ram c1) (pc c1 + 1)) = Some (pc c2))
  \/ (ir c1 = JEQ
      /\ if fl c1 =? 1
         then list_getitem (reg c1) (peek (ram c1) (pc c1 + 1)) = Some (pc c2)
         else pc c2 = pc c1 + 2)
  \/ (ir c1 = JNE
      /\ if fl c1 =? 1
         then pc c2 = pc c1 + 2
         else list_getitem (reg c1) (peek (ram c1) (pc c1 + 1)) = Some (pc c2))
  \/ (ir c1 = CALL
      /\ list_getitem (reg c2) (peek (ram c2) (pc c1 + 1)) = Some (pc c2))
  \/ (ir c1 = RET
      /\ exists s, list_getitem (reg c1) 7 = Some s
                   /\ pc c2 = peek (ram c1) s).

(** ** Flag bits *)

(** The three flag bits of [fl]: 0b001 equal, 0b010 greater, 0b100 less. *)
Definition flag_E (f : Z) : bool := Z.testbit f 0.

Definition flag_G (f : Z) : bool := Z.testbit f 1.

Definition flag_L (f : Z) : bool := Z.testbit f 2.

(** * The methods [run] does not call *)

(** ** [alu] (lines 119-125)

    [raise Exception(...)] is an exception of its own, so the outcome of
    [alu] is either an outcome of the register update or that exception. *)
Inductive alu_outcome : Type :=
| AluOutcome (o : outcome unit)
| AluException (msg : string) (c : CPU).  (* raise Exception(msg) *)

(** [self.reg[reg_a] += self.reg[reg_b]] for [op == "ADD"]. *)
Definition alu (op : string) (reg_a reg_b : Z) (c : CPU) : alu_outcome :=
  if decide (op = "ADD") then
    AluOutcome ((let* x := reg_getitem reg_a in
                 let* y := reg_getitem reg_b in
                 reg_setitem reg_a (x + y)) c)
  else AluException "Unsupported ALU operation" c.

(** ** [trace] (lines 127-142) *)

Definition hex_digit (d : N) : string :=
  match d with
  | 0 => "0" | 1 => "1" | 2 => "2" | 3 => "3" | 4 => "4" | 5 => "5"
  | 6 => "6" | 7 => "7" | 8 => "8" | 9 => "9" | 10 => "A" | 11 => "B"
  | 12 => "C" | 13 => "D" | 14 => "E" | _ => "F"
  end%N.

(** The hexadecimal digits of [n] in front of [acc], most significant
    first; [fuel] bounds the number of digits. *)
Fixpoint hex_go (fuel : nat) (n : N) (acc : string) : string :=
  match fuel with
  | O => acc
  | S fuel' =>
      if (n =? 0)%N then acc
      else hex_go fuel' (n / 16)%N (hex_digit (n mod 16)%N +:+ acc)
  end.

Definition hex_N (n : N) : string :=
  if (n =? 0)%N then "0" else hex_go (N.size_nat n) n "".

(** ["%02X" % v]: upper-case hexadecimal, a minus sign for a negative
    value, zeros on the left up to two characters in all. *)
Definition hex02 (v : Z) : string :=
  if v <? 0 then "-" +:+ hex_N (Z.to_N (- v))
  else
    let s := hex_N (Z.to_N v) in
    if (String.length s <? 2)%nat then "0" +:+ s else s.

(** The loop over the registers: each [print(" %02X" % self.reg[i], end='')]
    extends the current line, the final [print()] ends it.  Were a read of
    [reg] to raise, the unfinished line is what has been written. *)
Fixpoint trace_regs (indices : list Z) (line : string) : M unit :=
  match indices with
  | [] => print line
  | i :: rest => fun c =>
      match list_getitem (reg c) i with
      | Some v => trace_regs rest (line +:+ " " +:+ hex02 v) c
      | None => IndexError (set_stdout (stdout c ++ [line]) c)
      end
  end.

(** The arguments of the format are evaluated first (each [ram_read] may
    print its own line), then the line is written piece by piece. *)
Definition trace : M unit :=
  let* p := gets pc in
  let* b0 := ram_read p in
  let* b1 := ram_read (p + 1) in
  let* b2 := ram_read (p + 2) in
  trace_regs [0; 1; 2; 3; 4; 5; 6; 7]
    ("TRACE: " +:+ hex02 p +:+ " | " +:+ hex02 b0 +:+ " " +:+ hex02 b1
       +:+ " " +:+ hex02 b2 +:+ " |").

(** * Further vocabulary *)

Definition same_ram (c c' : CPU) : Prop := ram c' = ram c.

Definition same_reg (c c' : CPU) : Prop := reg c' = reg c.

Definition same_halted (c c' : CPU) : Prop := halted c' = halted c.

Definition keeps_wf (c c' : CPU) : Prop := wf c -> wf c'.

(** The method only writes on standard output. *)
Definition only_prints (c c' : CPU) : Prop :=
  exists out, c' = set_stdout out c.

(** The method never ends in [sys.exit]. *)
Definition no_exit {A} (m : M A) : Prop :=
  forall c, match m c with SystemExit _ _ => False | _ => True end.

(** * Basic facts about the primitives *)

Lemma py_index_nonneg (n i : Z) :
  0 <= i < n -> py_index n i = Some (Z.to_nat i).
Proof. intros H. unfold py_index. by rewrite decide_True. Qed.

Lemma py_index_negative (n i : Z) :
  - n <= i < 0 -> py_index n i = Some (Z.to_nat (i + n)).
Proof.
  intros H. unfold py_index.
  rewrite decide_False by lia. by rewrite decide_True.
Qed.

Lemma py_index_lt (n i : Z) (k : nat) :
  py_index n i = Some k -> (Z.of_nat k < n).
Proof.
  unfold py_index. repeat case_decide; intros; simplify_eq; lia.
Qed.

Lemma list_getitem_lookup (l : list Z) (i v : Z) :
  0 <= i -> l !! Z.to_nat i = Some v -> list_getitem l i = Some v.
Proof.
  intros Hi Hl. unfold list_getitem.
  apply lookup_lt_Some in Hl as Hlt.
  rewrite py_index_nonneg by lia. done.
Qed.

Lemma list_setitem_insert (l : list Z) (i v : Z) :
  0 <= i < Z.of_nat (length l) ->
  list_setitem l i v = Some (<[Z.to_nat i := v]> l).
Proof. intros Hi. unfold list_setitem. by rewrite py_index_nonneg. Qed.

Lemma list_setitem_length (l l' : list Z) (i v : Z) :
  list_setitem l i v = Some l' -> length l' = length l.
Proof.
  unfold list_setitem. destruct (py_index _ i); intros; simplify_eq.
  apply length_insert.
Qed.

Lemma in_range_true (n mar : Z) :
  0 <= mar < n -> (0 <=? mar) && (mar <? n) = true.
Proof. intros. apply andb_true_iff. split; [apply Z.leb_le | apply Z.ltb_lt]; lia. Qed.

Lemma in_range_false (n mar : Z) :
  ~ (0 <= mar < n) -> (0 <=? mar) && (mar <? n) = false.
Proof.
  intros H. apply andb_false_iff.
  destruct (Z.leb_spec 0 mar); [right | by left].
  apply Z.ltb_ge. lia.
Qed.

Lemma ram_read_in (mar v : Z) (c : CPU) :
  0 <= mar -> ram c !! Z.to_nat mar = Some v ->
  ram_read mar c = Return v c.
Proof.
  intros Hm Hl. apply lookup_lt_Some in Hl as Hlt.
  unfold ram_read, bind, gets. rewrite in_range_true by lia.
  by rewrite (list_getitem_lookup _ _ v).
Qed.

(** The filter of [int_str_ok] on the binary length is exact. *)
Lemma log2_filter (x n m L : Z) :
  0 <= x -> 0 < n -> 2 ^ n <= L -> L <= 2 ^ m ->
  (if Z.log2 x <? n then true else if m <=? Z.log2 x then false else x <? L)
  = (x <? L).
Proof.
  intros Hx Hn Hlo Hhi.
  destruct (Z.ltb_spec (Z.log2 x) n) as [H1 | H1].
  - symmetry. apply Z.ltb_lt.
    destruct (Z.eq_dec x 0) as [-> | Hne].
    + pose proof (Z.pow_pos_nonneg 2 n). lia.
    + assert (x < 2 ^ n); [| lia]. apply Z.log2_lt_pow2; lia.
  - destruct (Z.leb_spec m (Z.log2 x)) as [H2 | H2]; [| reflexivity].
    symmetry. apply Z.ltb_ge.
    assert (0 < x)
      by (destruct (Z.eq_dec x 0) as [-> | Hne]; [cbn in H1; lia | lia]).
    assert (2 ^ m <= x); [| lia].
    apply Z.log2_le_pow2; lia.
Qed.

Lemma str_limit_between :
  2 ^ 14276 <= 10 ^ max_str_digits /\ 10 ^ max_str_digits <= 2 ^ 14319.
Proof.
  assert (H1 : 2 ^ 332 <= 10 ^ 100) by (vm_compute; discriminate).
  assert (H2 : 10 ^ 100 <= 2 ^ 333) by (vm_compute; discriminate).
  change 14276 with (332 * 43). change 14319 with (333 * 43).
  change max_str_digits with (100 * 43).
  rewrite !Z.pow_mul_r by lia.
  split; apply Z.pow_le_mono_l; split; (done || by apply Z.pow_nonneg).
Qed.

Lemma int_str_ok_spec (v : Z) :
  int_str_ok v = (Z.abs v <? 10 ^ max_str_digits).
Proof.
  destruct str_limit_between as [Hlo Hhi].
  unfold int_str_ok. cbv zeta.
  apply log2_filter; [apply Z.abs_nonneg | reflexivity | exact Hlo | exact Hhi].
Qed.

Lemma int_str_ok_small (v : Z) : Z.abs v < 2 ^ 64 -> int_str_ok v = true.
Proof.
  intros Hv. unfold int_str_ok. cbv zeta.
  assert (Z.log2 (Z.abs v) < 64).
  { destruct (Z.eq_dec (Z.abs v) 0) as [-> | Hne]; [cbn; lia |].
    apply Z.log2_lt_pow2; lia. }
  destruct (Z.ltb_spec (Z.log2 (Z.abs v)) 14276); [done | lia].
Qed.

Lemma format_int_ok (v : Z) (c : CPU) :
  int_str_ok v = true -> format_int v c = Return (pretty v) c.
Proof. intros H. unfold format_int. by rewrite H. Qed.

Lemma format_int_huge (v : Z) (c : CPU) :
  int_str_ok v = false -> format_int v c = ValueError c.
Proof. intros H. unfold format_int. by rewrite H. Qed.

Lemma ram_read_out (mar : Z) (c : CPU) :
  ~ (0 <= mar < Z.of_nat (length (ram c))) -> int_str_ok mar = true ->
  ram_read mar c = Return (-1) (set_stdout (stdout c ++ [read_error mar]) c).
Proof.
  intros H Hok. unfold ram_read, bind, gets.
  rewrite in_range_false by done. by rewrite format_int_ok.
Qed.

Lemma ram_read_huge (mar : Z) (c : CPU) :
  ~ (0 <= mar < Z.of_nat (length (ram c))) -> int_str_ok mar = false ->
  ram_read mar c = ValueError c.
Proof.
  intros H Hok. unfold ram_read, bind, gets.
  rewrite in_range_false by done. by rewrite format_int_huge.
Qed.

Lemma ram_write_in (mar v : Z) (c : CPU) :
  0 <= mar < Z.of_nat (length (ram c)) ->
  ram_write mar v c
  = Return tt (set_ram (<[Z.to_nat mar := Z.land v 0xFF]> (ram c)) c).
Proof.
  intros H. unfold ram_write, bind, gets. rewrite in_range_true by done.
  by rewrite list_setitem_insert.
Qed.



Lemma reg_getitem_lookup (i v : Z) (c : CPU) :
  0 <= i -> reg c !! Z.to_nat i = Some v -> reg_getitem i c = Return v c.
Proof.
  intros Hi Hl. unfold reg_getitem. by rewrite (list_getitem_lookup _ _ v).
Qed.

Lemma reg_setitem_insert (i v : Z) (c : CPU) :
  0 <= i < Z.of_nat (length (reg c)) ->
  reg_setitem i v c = Return tt (set_reg (<[Z.to_nat i := v]> (reg c)) c).
Proof.
  intros Hi. unfold reg_setitem. by rewrite list_setitem_insert.
Qed.

Lemma land_255_mod (v : Z) : Z.land v 0xFF = v mod 256.
Proof. change 0xFF with (Z.ones 8). by rewrite Z.land_ones. Qed.

Lemma land_255_range (v : Z) : 0 <= Z.land v 0xFF < 256.
Proof. rewrite land_255_mod. apply Z.mod_pos_bound. lia. Qed.

(** Reduce the attributes of an updated object. *)
Ltac fields :=
  cbn [pc ir fl mdr mar ram reg halted stdout
       set_pc set_ir set_fl set_mdr set_ram set_reg set_halted set_stdout].

(** Unfold the monadic plumbing of a handler applied to a state. *)
Ltac exec :=
  unfold op_a, op_b, sp, sp_setter, instruction_size, instruction_sets_pc,
    print, bind, gets, modify, ret;
  fields.

(** * A concrete run *)

Example mult_program :
  report <$> ls8 10 [LDI; 0; 8; LDI; 1; 9; MUL; 0; 1; PRN; 0; HLT]
  = Some (0, ["72"%string]).
Proof. vm_compute. reflexivity. Qed.

(** * Arithmetic handlers *)

Section Arithmetic.
Variable c : CPU.
Variables ra rb a b : Z.
Hypothesis Hops : operands c ra rb.
Hypothesis Hra : 0 <= ra.
Hypothesis Hrb : 0 <= rb.
Hypothesis Ha : reg c !! Z.to_nat ra = Some a.
Hypothesis Hb : reg c !! Z.to_nat rb = Some b.

Lemma process_ADD_spec :
  process_ADD c = Return tt (set_reg (<[Z.to_nat ra := a + b]> (reg c)) c).
Proof using All.
  destruct Hops as (Hpc & Hoa & Hob).
  apply lookup_lt_Some in Ha as Hlt.
  unfold process_ADD. exec.
  rewrite (ram_read_in _ ra) by (done || lia).
  rewrite (reg_getitem_lookup _ a) by done.
  rewrite (ram_read_in _ rb) by (done || lia).
  rewrite (reg_getitem_lookup _ b) by done.
  rewrite reg_setitem_insert by lia. done.
Qed.

Lemma process_MUL_spec :
  process_MUL c = Return tt (set_reg (<[Z.to_nat ra := a * b]> (reg c)) c).
Proof using All.
  destruct Hops as (Hpc & Hoa & Hob).
  apply lookup_lt_Some in Ha as Hlt.
  unfold process_MUL. exec.
  rewrite (ram_read_in _ ra) by (done || lia).
  rewrite (reg_getitem_lookup _ a) by done.
  rewrite (ram_read_in _ rb) by (done || lia).
  rewrite (reg_getitem_lookup _ b) by done.
  rewrite reg_setitem_insert by lia. done.
Qed.
End Arithmetic.

(** C1 (as amended): with operand bytes [ra], [rb] naming registers that hold
    integers [a] and [b], 8-bit or not, ADD returns normally having stored
    the integer [a + b] in register [ra], and MUL the integer [a * b];
    nothing else of the machine changes and no reduction modulo 256 takes
    place.  The stored value is the one of the wrapped arithmetic exactly
    when the true sum (product) lies in [0,256). *)
Theorem ADD_MUL_store_unbounded_result (c : CPU) (ra rb a b : Z) :
  operands c ra rb -> 0 <= ra < 8 -> 0 <= rb < 8 ->
  reg c !! Z.to_nat ra = Some a -> reg c !! Z.to_nat rb = Some b ->
  (process_ADD c = Return tt (set_reg (<[Z.to_nat ra := a + b]> (reg c)) c)
   /\ reg (state_of (process_ADD c)) !! Z.to_nat ra = Some (a + b)
   /\ (a + b = (a + b) mod 256 <-> 0 <= a + b < 256))
  /\
  (process_MUL c = Return tt (set_reg (<[Z.to_nat ra := a * b]> (reg c)) c)
   /\ reg (state_of (process_MUL c)) !! Z.to_nat ra = Some (a * b)
   /\ (a * b = (a * b) mod 256 <-> 0 <= a * b < 256)).
Proof.
  intros Hops Hra Hrb Ha Hb.
  apply lookup_lt_Some in Ha as Hlt.
  rewrite (process_ADD_spec c ra rb a b) by (done || lia).
  rewrite (process_MUL_spec c ra rb a b) by (done || lia).
  cbn [state_of reg set_reg].
  rewrite !list_lookup_insert_eq by done.
  assert (Hwrap : forall x, x = x mod 256 <-> 0 <= x < 256).
  { intros x. split.
    - intros ->. apply Z.mod_pos_bound. lia.
    - intros ?. symmetry. by apply Z.mod_small. }
  split; (split; [done | split; [done | apply Hwrap]]).
Qed.

Lemma ADD_MUL_store_unbounded_result_witness :
  reg (state_of (process_ADD (set_pc 6 (set_reg [300; 100; 0; 0; 0; 0; 0; 244]
         (load add_overflow_program init))))) !! 0%nat = Some 400.
Proof.
  apply (ADD_MUL_store_unbounded_result
           (set_pc 6 (set_reg [300; 100; 0; 0; 0; 0; 0; 244]
              (load add_overflow_program init))) 0 1 300 100);
    (vm_compute; done) || lia.
Defined.

(** C1 fails as stated: registers holding 200 and 100 are added to 300,
    not to [(200 + 100) mod 256 = 44], and 16 times 16 is stored as 256,
    not as 0; the programs print these values. *)
Lemma ADD_MUL_do_not_wrap :
  (exists c, ls8 10 add_overflow_program = Some (Return tt c)
             /\ reg c !! 0%nat = Some 300
             /\ reg c !! 0%nat <> Some ((200 + 100) mod 256)
             /\ stdout c = ["300"%string])
  /\
  (exists c, ls8 10 mul_overflow_program = Some (Return tt c)
             /\ reg c !! 0%nat = Some 256
             /\ reg c !! 0%nat <> Some ((16 * 16) mod 256)
             /\ stdout c = ["256"%string]).
Proof.
  split; eexists; (split; [vm_compute; reflexivity |]); vm_compute; done.
Qed.

(** * Memory accesses outside the array *)

Lemma string_length_app (s t : string) :
  String.length (s +:+ t) = (String.length s + String.length t)%nat.
Proof.
  induction s as [|a s IH]; [done |].
  change (String a s +:+ t) with (String a (s +:+ t)).
  cbn. by rewrite IH.
Qed.

Lemma string_app_inj_r (t s1 s2 : string) : s1 +:+ t = s2 +:+ t -> s1 = s2.
Proof.
  revert s2. induction s1 as [|a s1 IH]; intros [|b s2] H.
  - done.
  - apply (f_equal String.length) in H.
    rewrite !string_length_app in H. cbn in H. lia.
  - apply (f_equal String.length) in H.
    rewrite !string_length_app in H. cbn in H. lia.
  - change (String a (s1 +:+ t) = String b (s2 +:+ t)) in H.
    injection H as -> H. f_equal. by apply IH.
Qed.


Lemma no_instruction_inj (i j : Z) :
  no_instruction i = no_instruction j -> i = j.
Proof.
  unfold no_instruction. intros H.
  apply (inj (String.app _)) in H.
  apply string_app_inj_r in H. by apply (inj pretty) in H.
Qed.




(** * Fetch and dispatch *)

Lemma fetch_in (c : CPU) (op : Z) :
  0 <= pc c -> ram c !! Z.to_nat (pc c) = Some op ->
  fetch c = Return tt (set_ir op c).
Proof.
  intros Hpc Hop. unfold fetch. exec. by rewrite (ram_read_in _ op).
Qed.

Lemma fetch_out (c : CPU) :
  ~ (0 <= pc c < Z.of_nat (length (ram c))) -> int_str_ok (pc c) = true ->
  fetch c
  = Return tt (set_ir (-1) (set_stdout (stdout c ++ [read_error (pc c)]) c)).
Proof. intros H Hok. unfold fetch. exec. by rewrite ram_read_out. Qed.

Lemma fetch_huge (c : CPU) :
  ~ (0 <= pc c < Z.of_nat (length (ram c))) -> int_str_ok (pc c) = false ->
  fetch c = ValueError c.
Proof. intros H Hok. unfold fetch. exec. by rewrite ram_read_huge. Qed.

Lemma dispatch_unknown (c : CPU) :
  branchtable !! ir c = None -> int_str_ok (ir c) = true ->
  dispatch c
  = SystemExit 1 (set_stdout (stdout c ++ [no_instruction (ir c)]) c).
Proof.
  intros H Hok. unfold dispatch. exec. rewrite H. exec.
  by rewrite format_int_ok.
Qed.

Lemma dispatch_unknown_huge (c : CPU) :
  branchtable !! ir c = None -> int_str_ok (ir c) = false ->
  dispatch c = ValueError c.
Proof.
  intros H Hok. unfold dispatch. exec. rewrite H. exec.
  by rewrite format_int_huge.
Qed.

Lemma dispatch_known (c : CPU) (handler : M unit) :
  branchtable !! ir c = Some handler -> dispatch c = handler c.
Proof. intros H. unfold dispatch. exec. by rewrite H. Qed.

Lemma branchtable_minus_one : branchtable !! (-1) = None.
Proof. vm_compute. reflexivity. Qed.

Lemma run_running (fuel : nat) (c : CPU) :
  halted c = false ->
  run (S fuel) c
  = match cycle c with Return _ c' => run fuel c' | e => Some e end.
Proof. intros H. cbn [run]. by rewrite H. Qed.

(** C3 (as amended): when the byte fetched at PC has no entry in the branch
    table, [run] prints one line naming that byte and stops with
    [sys.exit(1)]; the line determines the byte, and neither the line nor
    the exit status carries the PC (the object itself is left with [pc]
    unchanged and [ir] set to the byte).  In particular a program made of
    that single byte prints the line for it and exits with status 1, the
    object's [pc] being 0.  (This is so for every fetched integer whose
    decimal text the interpreter accepts to produce, which includes every
    byte; for a longer one the line cannot be formatted and the run ends in
    [ValueError].) *)
Theorem unimplemented_opcode_exits (c : CPU) (op : Z) (fuel : nat) :
  halted c = false -> 0 <= pc c -> ram c !! Z.to_nat (pc c) = Some op ->
  branchtable !! op = None ->
  (0 <= op < 256 -> int_str_ok op = true)
  /\ (int_str_ok op = true ->
      run (S fuel) c
      = Some (SystemExit 1
                (set_stdout (stdout c ++ [no_instruction op]) (set_ir op c))))
  /\ (int_str_ok op = false ->
      run (S fuel) c = Some (ValueError (set_ir op c)))
  /\ (forall op', no_instruction op = no_instruction op' -> op = op')
  /\ (int_str_ok op = true ->
      exists c', ls8 (S fuel) [op] = Some (SystemExit 1 c')
                 /\ report (@SystemExit unit 1 c') = (1, [no_instruction op])
                 /\ pc c' = 0).
Proof.
  intros Hrun Hpc Hop Hnone. split; [| split; [| split; [| split]]].
  - intros Hbyte. apply int_str_ok_small. lia.
  - intros Hok. rewrite run_running by done. unfold cycle, bind at 1 2.
    rewrite (fetch_in c op) by done.
    rewrite dispatch_unknown by done. done.
  - intros Hhuge. rewrite run_running by done. unfold cycle, bind at 1 2.
    rewrite (fetch_in c op) by done.
    rewrite dispatch_unknown_huge by done. done.
  - apply no_instruction_inj.
  - intros Hok. eexists. split; [| split].
    + unfold ls8. rewrite run_running by done. unfold cycle, bind at 1 2.
      rewrite (fetch_in _ op) by (done || lia).
      rewrite dispatch_unknown by done. reflexivity.
    + reflexivity.
    + reflexivity.
Qed.

Lemma unimplemented_opcode_exits_witness :
  run 1 (load [255] init)
  = Some (SystemExit 1
            (set_stdout ["Error: Could not find instruction 255."%string]
               (set_ir 255 (load [255] init)))).
Proof.
  destruct (unimplemented_opcode_exits (load [255] init) 255 0)
    as (Hbyte & H & _);
    [reflexivity | cbn; lia | reflexivity | vm_compute; reflexivity |].
  apply H, Hbyte. lia.
Defined.

(** C3 fails as stated: the program made of the unknown byte 255 faults at
    PC 0, the program [LDI R0,0] followed by 255 faults at PC 3, and the two
    runs report the same thing to their caller: status 1 and one line naming
    the byte.  The report therefore does not give the offending PC. *)
Lemma unimplemented_report_omits_pc :
  exists c1 c2,
    ls8 5 [255] = Some (SystemExit 1 c1)
    /\ ls8 5 [LDI; 0; 0; 255] = Some (SystemExit 1 c2)
    /\ pc c1 = 0 /\ pc c2 = 3
    /\ report (@SystemExit unit 1 c1) = report (@SystemExit unit 1 c2)
    /\ report (@SystemExit unit 1 c1)
       = (1, ["Error: Could not find instruction 255."%string]).
Proof.
  do 2 eexists.
  split; [vm_compute; reflexivity |].
  split; [vm_compute; reflexivity |].
  vm_compute. done.
Qed.

(** C10 (as amended): when PC is outside [0,256) at fetch time (machine
    running) and its decimal text is one the interpreter accepts to produce
    ([abs(PC) < 10 ** 4300] by default), the read at PC returns -1 after
    printing its line, -1 has no entry in the branch table, and [run] stops
    through the "could not find instruction" exit, [sys.exit(1)], naming -1
    as the instruction.  For a PC with more digits the line of the read
    cannot be formatted: the read raises [ValueError] and the run ends with
    that exception, nothing printed. *)
Theorem fetch_outside_memory_exits_unimplemented (c : CPU) (fuel : nat) :
  wf c -> halted c = false -> ~ (0 <= pc c < 256) ->
  branchtable !! (-1) = None
  /\ (int_str_ok (pc c) = true ->
      ram_read (pc c) c
      = Return (-1) (set_stdout (stdout c ++ [read_error (pc c)]) c)
      /\ run (S fuel) c
         = Some (SystemExit 1
                   (set_stdout
                      (stdout c
                         ++ [read_error (pc c);
                             "Error: Could not find instruction -1."%string])
                      (set_ir (-1) c))))
  /\ (int_str_ok (pc c) = false ->
      ram_read (pc c) c = ValueError c
      /\ run (S fuel) c = Some (ValueError c))
  /\ int_str_ok (pc c) = (Z.abs (pc c) <? 10 ^ max_str_digits).
Proof.
  intros [Hram _] Hrun Hpc.
  assert (Hn : ~ (0 <= pc c < Z.of_nat (length (ram c)))) by (rewrite Hram; lia).
  split; [apply branchtable_minus_one |].
  split; [| split; [| apply int_str_ok_spec]].
  - intros Hok. split; [by apply ram_read_out |].
    rewrite run_running by done. unfold cycle, bind at 1 2.
    rewrite fetch_out by done.
    rewrite dispatch_unknown by (apply branchtable_minus_one || reflexivity).
    cbn [ir set_ir set_stdout stdout ram reg pc mar mdr fl halted].
    unfold set_stdout, set_ir. cbn [ir stdout ram reg pc mar mdr fl halted].
    rewrite <- app_assoc. reflexivity.
  - intros Hhuge. split; [by apply ram_read_huge |].
    rewrite run_running by done. unfold cycle, bind at 1.
    by rewrite fetch_huge.
Qed.

Lemma fetch_outside_memory_exits_unimplemented_witness :
  report <$> run 1 (set_pc 256 init)
  = Some (1, ["Error with read from memory address: 256"%string;
              "Error: Could not find instruction -1."%string]).
Proof.
  destruct (fetch_outside_memory_exits_unimplemented (set_pc 256 init) 0)
    as (_ & H & _); [split; reflexivity | reflexivity | cbn; lia |].
  destruct (H eq_refl) as [_ ->]. reflexivity.
Defined.

(** C10 fails as stated: the 8-bit program [huge_pc_program] squares 2
    fourteen times and jumps to the result, so that the next fetch is at
    PC = 2^16384, a number of 4933 digits.  The read at PC does not return
    -1: its line cannot be formatted, and the run ends in [ValueError], not
    in the "could not find instruction" exit, with nothing printed. *)
Lemma huge_PC_raises_ValueError :
  Forall (fun v => 0 <= v < 256) huge_pc_program
  /\ exists c,
       ls8 20 huge_pc_program = Some (ValueError c)
       /\ pc c = 2 ^ 16384
       /\ ~ (0 <= pc c < 256)
       /\ ram_read (pc c) c = ValueError c
       /\ stdout c = []
       /\ (forall n c', ls8 20 huge_pc_program <> Some (SystemExit n c')).
Proof.
  split; [repeat constructor; vm_compute; discriminate |].
  eexists. split; [vm_compute; reflexivity |].
  split; [reflexivity |]. split; [vm_compute; intros [_ H]; discriminate |].
  split; [vm_compute; reflexivity |]. split; [reflexivity |].
  intros n c'. vm_compute. discriminate.
Qed.

(** * What the handlers leave alone

    A relation [R] between the object before and after a method; the
    section collects, attribute by attribute, which methods respect it. *)

Section Frame.
Variable R : CPU -> CPU -> Prop.
Hypothesis R_refl : forall c, R c c.
Hypothesis R_trans : forall c1 c2 c3, R c1 c2 -> R c2 c3 -> R c1 c3.

Lemma respects_bind {A B} (m : M A) (k : A -> M B) :
  respects R m -> (forall a, respects R (k a)) -> respects R (bind m k).
Proof.
  intros Hm Hk c. unfold bind. specialize (Hm c).
  destruct (m c) as [a c'| c' | n c' | c']; cbn in *; [| done | done | done].
  eapply R_trans; [exact Hm | apply Hk].
Qed.

Lemma respects_ret {A} (a : A) : respects R (ret a).
Proof. intros c. apply R_refl. Qed.

Lemma respects_gets {A} (f : CPU -> A) : respects R (gets f).
Proof. intros c. apply R_refl. Qed.

Lemma respects_raise {A} : respects R (@raise_IndexError A).
Proof. intros c. apply R_refl. Qed.

Lemma respects_sys_exit {A} (n : Z) : respects R (@sys_exit A n).
Proof. intros c. apply R_refl. Qed.

Lemma respects_format_int (v : Z) : respects R (format_int v).
Proof. intros c. unfold format_int. destruct (int_str_ok v); apply R_refl. Qed.

Lemma respects_modify (f : CPU -> CPU) :
  (forall c, R c (f c)) -> respects R (modify f).
Proof. intros H c. apply H. Qed.

Lemma respects_reg_getitem (i : Z) : respects R (reg_getitem i).
Proof.
  intros c. unfold reg_getitem. destruct (list_getitem _ _); apply R_refl.
Qed.

Lemma respects_instruction_size : respects R instruction_size.
Proof. intros c. apply R_refl. Qed.

Lemma respects_instruction_sets_pc : respects R instruction_sets_pc.
Proof. intros c. apply R_refl. Qed.

(** Attributes written by the handlers that do not set PC. *)
Hypothesis R_stdout : forall c v, R c (set_stdout v c).
Hypothesis R_mdr : forall c v, R c (set_mdr v c).
Hypothesis R_fl : forall c v, v = 4 \/ v = 2 \/ v = 1 -> R c (set_fl v c).
Hypothesis R_halted : forall c v, R c (set_halted v c).
Hypothesis R_reg : forall c i v l,
  list_setitem (reg c) i v = Some l -> R c (set_reg l c).
Hypothesis R_ram : forall c i v l,
  list_setitem (ram c) i (Z.land v 0xFF) = Some l -> R c (set_ram l c).

Lemma respects_print (s : string) : respects R (print s).
Proof. intros c. apply R_stdout. Qed.

Lemma respects_reg_setitem (i v : Z) : respects R (reg_setitem i v).
Proof.
  intros c. unfold reg_setitem.
  destruct (list_setitem _ _ _) eqn:E; cbn; [by eapply R_reg | apply R_refl].
Qed.

Lemma respects_ram_read (mar : Z) : respects R (ram_read mar).
Proof.
  intros c. unfold ram_read, bind, gets, print, modify, ret, raise_IndexError,
    format_int, raise_ValueError.
  destruct (_ && _); [destruct (list_getitem _ _) | destruct (int_str_ok mar)];
    cbn; apply R_refl || apply R_stdout.
Qed.

Lemma respects_ram_write (mar v : Z) : respects R (ram_write mar v).
Proof.
  intros c. unfold ram_write, bind, gets, print, modify, raise_IndexError,
    format_int, raise_ValueError, ret.
  destruct (_ && _);
    [destruct (list_setitem _ _ _) eqn:E | destruct (int_str_ok mar)]; cbn.
  - by eapply R_ram.
  - apply R_refl.
  - apply R_stdout.
  - apply R_refl.
Qed.

Ltac frame :=
  repeat first
    [ apply respects_ret | apply respects_gets
    | apply respects_sys_exit | apply respects_format_int
    | apply respects_instruction_size | apply respects_instruction_sets_pc
    | apply respects_print | apply respects_reg_getitem
    | apply respects_reg_setitem | apply respects_ram_read
    | apply respects_ram_write
    | apply respects_modify; intros ?;
      first [apply R_mdr | apply R_fl; auto | apply R_halted]
    | match goal with |- respects _ (if ?b then _ else _) => destruct b end
    | apply respects_bind; [| intros ?] ].

Lemma respects_op_a : respects R op_a.
Proof. unfold op_a. frame. Qed.

Lemma respects_op_b : respects R op_b.
Proof. unfold op_b. frame. Qed.

Lemma respects_HLT : respects R process_HLT.
Proof. unfold process_HLT. frame. Qed.

Lemma respects_LDI : respects R process_LDI.
Proof. unfold process_LDI, op_a, op_b. frame. Qed.

Lemma respects_PRN : respects R process_PRN.
Proof. unfold process_PRN, op_a. frame. Qed.

Lemma respects_MUL : respects R process_MUL.
Proof. unfold process_MUL, op_a, op_b. frame. Qed.

Lemma respects_ADD : respects R process_ADD.
Proof. unfold process_ADD, op_a, op_b. frame. Qed.

Lemma respects_PUSH : respects R process_PUSH.
Proof. unfold process_PUSH, op_a, sp, sp_setter. frame. Qed.

Lemma respects_POP : respects R process_POP.
Proof. unfold process_POP, op_a, sp, sp_setter. frame. Qed.

Lemma respects_CMP : respects R process_CMP.
Proof. unfold process_CMP, op_a, op_b. frame. Qed.

(** The handlers that set PC. *)
Hypothesis R_pc : forall c v, R c (set_pc v c).

Lemma respects_JMP : respects R process_JMP.
Proof.
  unfold process_JMP, op_a. frame. apply respects_modify; intros ?; apply R_pc.
Qed.

Lemma respects_JEQ : respects R process_JEQ.
Proof.
  unfold process_JEQ. frame; apply respects_modify; intros ?; apply R_pc.
Qed.

Lemma respects_JNE : respects R process_JNE.
Proof.
  unfold process_JNE. frame; apply respects_modify; intros ?; apply R_pc.
Qed.

Lemma respects_CALL : respects R process_CALL.
Proof.
  unfold process_CALL, op_a, sp, sp_setter. frame.
  apply respects_modify; intros ?; apply R_pc.
Qed.

Lemma respects_RET : respects R process_RET.
Proof.
  unfold process_RET, sp, sp_setter. frame.
  apply respects_modify; intros ?; apply R_pc.
Qed.

Lemma respects_advance : respects R advance.
Proof.
  unfold advance. frame. apply respects_modify; intros ?; apply R_pc.
Qed.

Lemma respects_dispatch :
  (forall op h, branchtable !! op = Some h -> respects R h) ->
  respects R dispatch.
Proof.
  intros H c. destruct (branchtable !! ir c) as [h|] eqn:Hh.
  - rewrite (dispatch_known _ h) by done. by apply (H (ir c)).
  - destruct (int_str_ok (ir c)) eqn:Hok.
    + rewrite dispatch_unknown by done. apply R_stdout.
    + rewrite dispatch_unknown_huge by done. apply R_refl.
Qed.
End Frame.

(** * The branch table, entry by entry *)

Lemma branchtable_lookup (i : Z) (h : M unit) :
  branchtable !! i = Some h -> (i, h) ∈ handlers.
Proof.
  unfold branchtable, handlers. intros H.
  repeat (apply lookup_insert_Some in H as [[<- <-] | [_ H]];
          [apply list_elem_of_In; cbn; tauto |]).
  by rewrite lookup_empty in H.
Qed.

Lemma branchtable_Forall (P : Z -> M unit -> Prop) (i : Z) (h : M unit) :
  Forall (fun e => P e.1 e.2) handlers ->
  branchtable !! i = Some h -> P i h.
Proof.
  intros HP Hl. apply branchtable_lookup in Hl.
  rewrite Forall_forall in HP. exact (HP _ Hl).
Qed.

Ltac field_frame :=
  first [ by intros | intros; hnf in *; cbn; congruence ].

Lemma handlers_same_ir :
  Forall (fun e => respects same_ir e.2) handlers.
Proof.
  unfold handlers.
  repeat (apply Forall_cons; split); [.. | constructor]; cbn [snd].
  - apply respects_HLT; field_frame.
  - apply respects_LDI; field_frame.
  - apply respects_PRN; field_frame.
  - apply respects_MUL; field_frame.
  - apply respects_PUSH; field_frame.
  - apply respects_POP; field_frame.
  - apply respects_CALL; field_frame.
  - apply respects_RET; field_frame.
  - apply respects_ADD; field_frame.
  - apply respects_CMP; field_frame.
  - apply respects_JMP; field_frame.
  - apply respects_JEQ; field_frame.
  - apply respects_JNE; field_frame.
Qed.

(** The handlers of the opcodes whose bit 4 is clear never assign [pc]. *)
Lemma handlers_same_pc :
  Forall (fun e => Z.testbit e.1 4 = false -> respects same_pc e.2) handlers.
Proof.
  unfold handlers.
  repeat (apply Forall_cons; split); [.. | constructor];
    cbn [fst snd]; intros Hbit; try (vm_compute in Hbit; discriminate).
  - apply respects_HLT; field_frame.
  - apply respects_LDI; field_frame.
  - apply respects_PRN; field_frame.
  - apply respects_MUL; field_frame.
  - apply respects_PUSH; field_frame.
  - apply respects_POP; field_frame.
  - apply respects_ADD; field_frame.
  - apply respects_CMP; field_frame.
Qed.

Lemma fetch_same_pc : respects same_pc fetch.
Proof.
  unfold fetch.
  apply (respects_bind same_pc); [field_frame | |]; [| intros p].
  { apply (respects_gets same_pc). field_frame. }
  apply (respects_bind same_pc); [field_frame | |]; [| intros i].
  { apply (respects_ram_read same_pc); field_frame. }
  apply (respects_modify same_pc). field_frame.
Qed.

Lemma sets_pc_testbit (i : Z) : (Z.land (Z.shiftr i 4) 1 =? 1) = Z.testbit i 4.
Proof.
  change (Z.land (Z.shiftr i 4) 1) with (Z.land (Z.shiftr i 4) (Z.ones 1)).
  rewrite Z.land_ones by lia.
  change (2 ^ 1) with 2. rewrite <- Z.bit0_mod.
  rewrite Z.shiftr_spec by lia. change (0 + 4) with 4.
  by destruct (Z.testbit i 4).
Qed.

(** * The program counter is updated once per cycle *)

Lemma bind_Return {A B} (m : M A) (k : A -> M B) (c c2 : CPU) (b : B) :
  bind m k c = Return b c2 ->
  exists a c1, m c = Return a c1 /\ k a c1 = Return b c2.
Proof.
  unfold bind. destruct (m c) as [a c1 | c1 | n c1 | c1]; try discriminate.
  intros H. by exists a, c1.
Qed.

Lemma ram_read_Return (mar v : Z) (c c' : CPU) :
  ram_read mar c = Return v c' ->
  v = peek (ram c) mar /\ exists out, c' = set_stdout out c.
Proof.
  unfold ram_read, peek, bind, gets, format_int, print, modify, ret,
    raise_IndexError, raise_ValueError.
  destruct (_ && _).
  - destruct (list_getitem (ram c) mar); intros [= <- <-].
    split; [done |]. exists (stdout c). by destruct c.
  - destruct (int_str_ok mar); intros [= <- <-]. split; [done | by eexists].
Qed.

Lemma op_a_Return (a : Z) (c c' : CPU) :
  op_a c = Return a c' ->
  a = peek (ram c) (pc c + 1) /\ exists out, c' = set_stdout out c.
Proof. unfold op_a, bind, gets. apply ram_read_Return. Qed.

Lemma reg_getitem_Return (i v : Z) (c c' : CPU) :
  reg_getitem i c = Return v c' -> c' = c /\ list_getitem (reg c) i = Some v.
Proof.
  unfold reg_getitem. destruct (list_getitem (reg c) i); intros [= <- <-]; done.
Qed.

Lemma reg_setitem_Return (i v : Z) (c c' : CPU) :
  reg_setitem i v c = Return tt c' -> exists l, c' = set_reg l c.
Proof.
  unfold reg_setitem. destruct (list_setitem (reg c) i v); intros [= <-].
  by eexists.
Qed.

Lemma ram_write_Return (mar v : Z) (c c' : CPU) :
  ram_write mar v c = Return tt c' ->
  (exists l, c' = set_ram l c) \/ (exists out, c' = set_stdout out c).
Proof.
  unfold ram_write, bind, gets, format_int, print, modify, ret,
    raise_IndexError, raise_ValueError.
  destruct (_ && _).
  - destruct (list_setitem (ram c) mar _); intros [= <-]. left. by eexists.
  - destruct (int_str_ok mar); intros [= <-]. right. by eexists.
Qed.

Lemma process_JMP_Return (c c2 : CPU) :
  process_JMP c = Return tt c2 ->
  list_getitem (reg c) (peek (ram c) (pc c + 1)) = Some (pc c2).
Proof.
  unfold process_JMP. intros H.
  apply bind_Return in H as (a & c' & Ha & H).
  apply op_a_Return in Ha as (-> & out & ->).
  apply bind_Return in H as (v & c'' & Hv & H).
  apply reg_getitem_Return in Hv as (-> & Hv).
  injection H as <-. exact Hv.
Qed.

Lemma process_RET_Return (c c2 : CPU) :
  process_RET c = Return tt c2 ->
  exists s, list_getitem (reg c) 7 = Some s /\ pc c2 = peek (ram c) s.
Proof.
  unfold process_RET, sp, sp_setter. intros H.
  apply bind_Return in H as (s & c' & Hs & H).
  apply reg_getitem_Return in Hs as (-> & Hs).
  apply bind_Return in H as (v & c' & Hv & H).
  apply ram_read_Return in Hv as (-> & out & ->).
  apply bind_Return in H as ([] & c' & Hm & H).
  injection Hm as <-.
  apply bind_Return in H as (s' & c' & Hs' & H).
  apply reg_getitem_Return in Hs' as (-> & _).
  apply reg_setitem_Return in H as (l & ->).
  exists s. split; [exact Hs | reflexivity].
Qed.

Lemma process_CALL_Return (c c2 : CPU) :
  process_CALL c = Return tt c2 ->
  list_getitem (reg c2) (peek (ram c2) (pc c + 1)) = Some (pc c2).
Proof.
  unfold process_CALL, sp, sp_setter, instruction_size. intros H.
  apply bind_Return in H as ([] & c1 & Hdec & H).
  apply bind_Return in Hdec as (s & c' & Hs & Hdec).
  apply reg_getitem_Return in Hs as (-> & _).
  apply reg_setitem_Return in Hdec as (l & ->).
  apply bind_Return in H as (s1 & c' & Hs1 & H).
  apply reg_getitem_Return in Hs1 as (-> & _).
  apply bind_Return in H as (p & c' & Hp & H). injection Hp as <- <-.
  apply bind_Return in H as (n & c' & Hn & H).
  apply bind_Return in Hn as (i & c'' & Hi & Hn).
  injection Hi as <- <-. injection Hn as <- <-.
  apply bind_Return in H as ([] & c3 & Hw & H).
  apply bind_Return in H as (a & c4 & Ha & H).
  apply op_a_Return in Ha as (-> & out & ->).
  apply bind_Return in H as (v & c5 & Hv & H).
  apply reg_getitem_Return in Hv as (-> & Hv).
  injection H as <-.
  apply ram_write_Return in Hw as [[r ->] | [out' ->]]; exact Hv.
Qed.

(** C4: in a cycle whose fetch and handler return, the handler leaves [ir]
    as fetched, so the sets-PC flag the loop reads is bit 4 of it.  When
    that bit is clear the handler has left [pc] untouched and the loop sets
    it to [pc] plus the decoded instruction size.  When the bit is set the
    opcode is CALL, RET, JMP, JEQ or JNE, its handler has given PC the value
    that instruction defines ([pc_set_by_handler]), and the cycle ends in
    the very state the handler returned, [pc] included, with no advance
    applied. *)
Theorem cycle_updates_pc_once (c c1 c2 : CPU) :
  fetch c = Return tt c1 -> dispatch c1 = Return tt c2 ->
  ir c2 = ir c1
  /\ instruction_sets_pc c2 = Return (Z.testbit (ir c1) 4) c2
  /\ (Z.testbit (ir c1) 4 = false ->
      pc c2 = pc c
      /\ cycle c
         = Return tt (set_pc (pc c + (Z.land (Z.shiftr (ir c1) 6) 3 + 1)) c2))
  /\ (Z.testbit (ir c1) 4 = true ->
      cycle c = Return tt c2
      /\ pc c1 = pc c
      /\ pc_set_by_handler c1 c2).
Proof.
  intros Hf Hd.
  assert (Hpc1 : pc c1 = pc c).
  { pose proof (fetch_same_pc c) as H. by rewrite Hf in H. }
  assert (Hcycle : cycle c = advance c2).
  { unfold cycle, bind at 1 2. by rewrite Hf, Hd. }
  destruct (branchtable !! ir c1) as [h|] eqn:Hh.
  2:{ destruct (int_str_ok (ir c1)) eqn:Hok.
      - rewrite dispatch_unknown in Hd by done. discriminate.
      - rewrite dispatch_unknown_huge in Hd by done. discriminate. }
  rewrite (dispatch_known _ h) in Hd by done.
  assert (Hir : ir c2 = ir c1).
  { pose proof (branchtable_Forall (fun _ h => respects same_ir h) _ _
                  handlers_same_ir Hh c1) as H.
    by rewrite Hd in H. }
  split; [done |].
  split; [unfold instruction_sets_pc; exec; by rewrite sets_pc_testbit, Hir |].
  rewrite Hcycle. unfold advance. exec.
  rewrite sets_pc_testbit, Hir. split; intros Hbit; rewrite Hbit; cbn [negb].
  - assert (Hpc2 : pc c2 = pc c1).
    { pose proof (branchtable_Forall
                    (fun i h => Z.testbit i 4 = false -> respects same_pc h)
                    _ _ handlers_same_pc Hh Hbit c1) as H.
      by rewrite Hd in H. }
    split; [congruence |]. by rewrite Hpc2, Hpc1, Hir.
  - split; [done |]. split; [done |].
    apply branchtable_lookup in Hh. unfold handlers in Hh.
    unfold pc_set_by_handler.
    repeat (apply elem_of_cons in Hh as [[= Hop ->] | Hh]);
      [.. | by apply elem_of_nil in Hh];
      try (rewrite Hop in Hbit; vm_compute in Hbit; discriminate).
    + (* CALL *)
      right; right; right; left. split; [done |].
      by apply process_CALL_Return.
    + (* RET *)
      right; right; right; right. split; [done |].
      by apply process_RET_Return.
    + (* JMP *)
      left. split; [done |]. by apply process_JMP_Return.
    + (* JEQ *)
      right; left. split; [done |].
      unfold process_JEQ, bind at 1, gets in Hd.
      destruct (fl c1 =? 1); [by apply process_JMP_Return |].
      unfold instruction_size, bind, gets, ret, modify in Hd.
      rewrite Hop in Hd. injection Hd as <-. reflexivity.
    + (* JNE *)
      right; right; left. split; [done |].
      unfold process_JNE, bind at 1, gets in Hd.
      destruct (fl c1 =? 1); cbn [negb] in Hd;
        [| by apply process_JMP_Return].
      unfold instruction_size, bind, gets, ret, modify in Hd.
      rewrite Hop in Hd. injection Hd as <-. reflexivity.
Qed.

Lemma cycle_updates_pc_once_witness :
  cycle (load [LDI; 0; 8] init)
  = Return tt (set_pc 3 (set_reg [8; 0; 0; 0; 0; 0; 0; 244]
                           (set_ir LDI (load [LDI; 0; 8] init)))).
Proof.
  destruct (cycle_updates_pc_once
              (load [LDI; 0; 8] init)
              (set_ir LDI (load [LDI; 0; 8] init))
              (set_reg [8; 0; 0; 0; 0; 0; 0; 244]
                 (set_ir LDI (load [LDI; 0; 8] init))))
    as (_ & _ & H & _); [reflexivity | reflexivity |].
  destruct (H eq_refl) as [_ ->]. reflexivity.
Defined.

(** * The decoder *)

Lemma size_range (i : Z) : 1 <= Z.land (Z.shiftr i 6) 3 + 1 <= 4.
Proof.
  change 3 with (Z.ones 2). rewrite Z.land_ones by lia.
  pose proof (Z.mod_pos_bound (Z.shiftr i 6) (2 ^ 2)). lia.
Qed.

Lemma handlers_size :
  Forall (fun e => Z.land (Z.shiftr e.1 6) 3 + 1 <= 3) handlers.
Proof.
  unfold handlers.
  repeat (apply Forall_cons; split); [.. | constructor]; vm_compute; discriminate.
Qed.

(** C5 (as amended): for every state, reading the instruction size returns
    [((ir >> 6) & 3) + 1] and reading the sets-PC flag returns bit 4 of
    [ir], each leaving the state as it was.  The size lies between 1 and 4;
    it is 4 exactly for the bytes 192 to 255, and at most 3 for every opcode
    of the branch table. *)
Theorem decoder_inspects_bits (c : CPU) :
  instruction_size c = Return (Z.land (Z.shiftr (ir c) 6) 3 + 1) c
  /\ instruction_sets_pc c = Return (Z.testbit (ir c) 4) c
  /\ 1 <= Z.land (Z.shiftr (ir c) 6) 3 + 1 <= 4
  /\ (0 <= ir c < 256 ->
      (Z.land (Z.shiftr (ir c) 6) 3 + 1 = 4 <-> 192 <= ir c))
  /\ (is_Some (branchtable !! ir c) -> Z.land (Z.shiftr (ir c) 6) 3 + 1 <= 3).
Proof.
  split; [reflexivity |].
  split; [unfold instruction_sets_pc; exec; by rewrite sets_pc_testbit |].
  split; [apply size_range |]. split.
  - intros Hbyte. rewrite Z.shiftr_div_pow2 by lia.
    change 3 with (Z.ones 2). rewrite Z.land_ones by lia.
    change (2 ^ 6) with 64. change (2 ^ 2) with 4.
    assert (0 <= ir c / 64 < 4).
    { split; [apply Z.div_pos; lia | apply Z.div_lt_upper_bound; lia]. }
    rewrite Z.mod_small by lia.
    split; intros H0.
    + assert (3 <= ir c / 64) as H3 by lia.
      pose proof (Z.mul_div_le (ir c) 64). lia.
    + assert (3 <= ir c / 64) by (apply Z.div_le_lower_bound; lia). lia.
  - intros [h Hh].
    exact (branchtable_Forall (fun i _ => Z.land (Z.shiftr i 6) 3 + 1 <= 3)
             _ _ handlers_size Hh).
Qed.

Lemma decoder_inspects_bits_witness :
  Z.land (Z.shiftr (ir (set_ir LDI init)) 6) 3 + 1 <= 3.
Proof.
  apply (decoder_inspects_bits (set_ir LDI init)).
  exists process_LDI. reflexivity.
Defined.

(** C5 fails as stated: for the byte 192 (top two bits set) the decoder
    computes the size 4, which is none of 1, 2 and 3. *)
Lemma instruction_size_can_be_four :
  0 <= ir (set_ir 192 init) < 256
  /\ exists n, instruction_size (set_ir 192 init) = Return n (set_ir 192 init)
                /\ n = 4 /\ ~ (n = 1 \/ n = 2 \/ n = 3).
Proof.
  split; [cbn; lia |]. exists 4.
  split; [reflexivity |]. split; [reflexivity | lia].
Qed.

(** * Memory cells stay 8-bit *)

Lemma keeps_ok_refl (c : CPU) : keeps_ok c c.
Proof. by intros H. Qed.

Lemma keeps_ok_trans (c1 c2 c3 : CPU) :
  keeps_ok c1 c2 -> keeps_ok c2 c3 -> keeps_ok c1 c3.
Proof. unfold keeps_ok. auto. Qed.

Lemma keeps_ok_reg (c : CPU) (i v : Z) (l : list Z) :
  list_setitem (reg c) i v = Some l -> keeps_ok c (set_reg l c).
Proof.
  intros Hl [[Hram Hreg] H8]. apply list_setitem_length in Hl.
  repeat split; cbn; [done | congruence | done].
Qed.

Lemma keeps_ok_ram (c : CPU) (i v : Z) (l : list Z) :
  list_setitem (ram c) i (Z.land v 0xFF) = Some l -> keeps_ok c (set_ram l c).
Proof.
  intros Hl [[Hram Hreg] H8]. apply list_setitem_length in Hl as Hlen.
  repeat split; cbn; [congruence | done |].
  unfold list_setitem in Hl. destruct (py_index _ i); simplify_eq.
  unfold ram_8bit. cbn. apply Forall_insert; [done |].
  apply land_255_range.
Qed.

Ltac keeps_ok_frame :=
  first [ exact keeps_ok_refl | exact keeps_ok_trans
        | exact keeps_ok_reg | exact keeps_ok_ram
        | unfold keeps_ok, machine_ok, wf, ram_8bit; intros; cbn; assumption ].

Lemma handlers_keep_ok :
  Forall (fun e => respects keeps_ok e.2) handlers.
Proof.
  unfold handlers.
  repeat (apply Forall_cons; split); [.. | constructor]; cbn [snd].
  - apply respects_HLT; keeps_ok_frame.
  - apply respects_LDI; keeps_ok_frame.
  - apply respects_PRN; keeps_ok_frame.
  - apply respects_MUL; keeps_ok_frame.
  - apply respects_PUSH; keeps_ok_frame.
  - apply respects_POP; keeps_ok_frame.
  - apply respects_CALL; keeps_ok_frame.
  - apply respects_RET; keeps_ok_frame.
  - apply respects_ADD; keeps_ok_frame.
  - apply respects_CMP; keeps_ok_frame.
  - apply respects_JMP; keeps_ok_frame.
  - apply respects_JEQ; keeps_ok_frame.
  - apply respects_JNE; keeps_ok_frame.
Qed.

Lemma fetch_keeps_ok : respects keeps_ok fetch.
Proof.
  unfold fetch.
  apply (respects_bind keeps_ok); [keeps_ok_frame | |]; [| intros p].
  { apply (respects_gets keeps_ok). keeps_ok_frame. }
  apply (respects_bind keeps_ok); [keeps_ok_frame | |]; [| intros i].
  { apply (respects_ram_read keeps_ok); keeps_ok_frame. }
  apply (respects_modify keeps_ok). keeps_ok_frame.
Qed.

Lemma dispatch_keeps_ok : respects keeps_ok dispatch.
Proof.
  intros c. destruct (branchtable !! ir c) as [h|] eqn:Hh.
  - rewrite (dispatch_known _ h) by done.
    exact (branchtable_Forall (fun _ h => respects keeps_ok h) _ _
             handlers_keep_ok Hh c).
  - destruct (int_str_ok (ir c)) eqn:Hok;
      [rewrite dispatch_unknown | rewrite dispatch_unknown_huge];
      try done; by intros ?.
Qed.

Lemma advance_keeps_ok : respects keeps_ok advance.
Proof. apply respects_advance; keeps_ok_frame. Qed.

Lemma cycle_keeps_ok : respects keeps_ok cycle.
Proof.
  unfold cycle.
  apply (respects_bind keeps_ok); [keeps_ok_frame | apply fetch_keeps_ok |].
  intros _.
  apply (respects_bind keeps_ok); [keeps_ok_frame | apply dispatch_keeps_ok |].
  intros _. apply advance_keeps_ok.
Qed.

Lemma load_from_ok (program r : list Z) (address : nat) :
  Forall (fun v => 0 <= v < 256) program ->
  Forall (fun v => 0 <= v < 256) r ->
  length (load_from address program r) = length r
  /\ Forall (fun v => 0 <= v < 256) (load_from address program r).
Proof.
  intros Hp. revert r address.
  induction Hp as [|x program Hx _ IH]; intros r address Hr; cbn; [done |].
  case_decide.
  - destruct (IH (<[address := x]> r) (S address)) as [Hlen Hall].
    { by apply Forall_insert. }
    rewrite length_insert in Hlen. done.
  - by apply IH.
Qed.

Lemma load_ok (program : list Z) :
  Forall (fun v => 0 <= v < 256) program -> machine_ok (load program init).
Proof.
  intros Hp.
  destruct (load_from_ok program (ram init) 0 Hp) as [Hlen Hall].
  { apply Forall_replicate. lia. }
  split; [split |]; [cbn [load ram set_ram]; by rewrite Hlen | done | done].
Qed.

Lemma run_reachable (fuel : nat) (c0 c : CPU) (o : outcome unit) :
  reachable c0 c -> run fuel c = Some o -> reachable c0 (state_of o).
Proof.
  revert c. induction fuel as [|fuel IH]; intros c Hc; cbn [run];
    destruct (halted c) eqn:Hh; intros Ho; simplify_eq; try done.
  pose proof (reachable_cycle c0 c Hc Hh) as Hstep.
  destruct (cycle c) as [[] c' | c' | n c' | c']; simplify_eq; cbn in *; eauto.
Qed.

(** C9: a write inside the array stores the value masked to 8 bits.  Hence,
    starting from a machine whose cells are all in [0,255], every handler of
    the branch table leaves such a machine, whatever its outcome; and after
    loading 8-bit values every state the loop reaches, and the state any run
    ends in, has all its 256 cells in [0,255]. *)
Theorem memory_cells_stay_8bit :
  (forall c mar v, 0 <= mar < Z.of_nat (length (ram c)) ->
     exists c', ram_write mar v c = Return tt c'
                /\ ram c' !! Z.to_nat mar = Some (Z.land v 0xFF)
                /\ 0 <= Z.land v 0xFF < 256)
  /\ (forall c op h, branchtable !! op = Some h ->
        machine_ok c -> machine_ok (state_of (h c)))
  /\ (forall program c,
        Forall (fun v => 0 <= v < 256) program ->
        reachable (load program init) c ->
        length (ram c) = 256%nat /\ Forall (fun v => 0 <= v < 256) (ram c))
  /\ (forall program fuel o,
        Forall (fun v => 0 <= v < 256) program ->
        ls8 fuel program = Some o ->
        Forall (fun v => 0 <= v < 256) (ram (state_of o))).
Proof.
  assert (Hreach : forall program c,
            Forall (fun v => 0 <= v < 256) program ->
            reachable (load program init) c -> machine_ok c).
  { intros program c Hp Hc. induction Hc as [|c Hc IH Hh].
    - by apply load_ok.
    - by apply cycle_keeps_ok. }
  split; [| split; [| split]].
  - intros c mar v Hm. eexists. split; [by apply ram_write_in |].
    split; [| apply land_255_range]. cbn.
    apply list_lookup_insert_eq. lia.
  - intros c op h Hh.
    exact (branchtable_Forall (fun _ h => respects keeps_ok h) _ _
             handlers_keep_ok Hh c).
  - intros program c Hp Hc. destruct (Hreach program c Hp Hc) as [[? _] ?].
    done.
  - intros program fuel o Hp Ho.
    apply (Hreach program); [done |].
    eapply run_reachable; [apply reachable_start | exact Ho].
Qed.

Lemma memory_cells_stay_8bit_witness :
  Forall (fun v => 0 <= v < 256)
    (ram (state_of (process_PUSH (set_ir PUSH (load [PUSH; 0] init))))).
Proof.
  destruct memory_cells_stay_8bit as (_ & H & _).
  apply (H (set_ir PUSH (load [PUSH; 0] init)) PUSH process_PUSH);
    [reflexivity |].
  apply load_ok. repeat constructor; vm_compute; discriminate.
Defined.

(** * The stack *)

Lemma sp_round_trip (s : Z) :
  Z.land (Z.land (s - 1) 0xFF + 1) 0xFF = s mod 256.
Proof.
  rewrite !land_255_mod, Z.add_mod_idemp_l by lia. f_equal. lia.
Qed.

Lemma process_PUSH_spec (c : CPU) (r v s : Z) :
  wf c -> 0 <= pc c -> ram c !! Z.to_nat (pc c + 1) = Some r -> 0 <= r ->
  reg c !! 7%nat = Some s ->
  <[7%nat := Z.land (s - 1) 0xFF]> (reg c) !! Z.to_nat r = Some v ->
  process_PUSH c
  = Return tt
      (set_ram (<[Z.to_nat (Z.land (s - 1) 0xFF) := Z.land v 0xFF]> (ram c))
         (set_mdr v (set_reg (<[7%nat := Z.land (s - 1) 0xFF]> (reg c)) c))).
Proof.
  intros [Hram Hreg] Hpc Hop Hr Hs Hv.
  pose proof (land_255_range (s - 1)) as Hs1.
  unfold process_PUSH. exec.
  rewrite (reg_getitem_lookup 7 s) by (done || lia).
  rewrite reg_setitem_insert by (rewrite Hreg; lia). exec.
  rewrite (ram_read_in _ r) by (done || lia).
  rewrite (reg_getitem_lookup r v) by done. exec.
  rewrite (reg_getitem_lookup 7 (Z.land (s - 1) 0xFF)).
  2: lia.
  2:{ fields. apply list_lookup_insert_eq. rewrite Hreg. cbn. lia. }
  exec. rewrite ram_write_in by (fields; rewrite Hram; lia).
  reflexivity.
Qed.

Lemma process_POP_spec (c : CPU) (r x s s' : Z) :
  wf c -> 0 <= pc c -> ram c !! Z.to_nat (pc c + 1) = Some r -> 0 <= r < 8 ->
  reg c !! 7%nat = Some s -> 0 <= s -> ram c !! Z.to_nat s = Some x ->
  <[Z.to_nat r := x]> (reg c) !! 7%nat = Some s' ->
  process_POP c
  = Return tt
      (set_reg (<[7%nat := Z.land (s' + 1) 0xFF]> (<[Z.to_nat r := x]> (reg c)))
         (set_mdr x c)).
Proof.
  intros [Hram Hreg] Hpc Hop Hr Hs Hs0 Hx Hs'.
  unfold process_POP. exec.
  rewrite (reg_getitem_lookup 7 s) by (done || lia).
  rewrite (ram_read_in _ x) by done. exec.
  rewrite (ram_read_in _ r) by (done || lia).
  rewrite reg_setitem_insert by (fields; rewrite Hreg; lia). exec.
  rewrite (reg_getitem_lookup 7 s') by (done || lia).
  rewrite reg_setitem_insert.
  2:{ fields. rewrite length_insert, Hreg. lia. }
  reflexivity.
Qed.

(** C6: in a machine whose stack pointer is a memory address, PUSH of a
    register [r] holding an 8-bit [v] returns normally, and a POP into [r]
    executed next (at whatever PC, its operand byte being [r]) returns
    normally with register [r] holding [v] again and the stack pointer
    equal to its value before the PUSH. *)
Theorem PUSH_POP_round_trip (c : CPU) (r v s : Z) :
  wf c -> 0 <= pc c -> ram c !! Z.to_nat (pc c + 1) = Some r -> 0 <= r < 8 ->
  reg c !! Z.to_nat r = Some v -> 0 <= v < 256 ->
  reg c !! 7%nat = Some s -> 0 <= s < 256 ->
  exists c1,
    process_PUSH c = Return tt c1
    /\ forall p, 0 <= p -> ram c1 !! Z.to_nat (p + 1) = Some r ->
       exists c2,
         process_POP (set_pc p c1) = Return tt c2
         /\ reg c2 !! Z.to_nat r = Some v
         /\ reg c2 !! 7%nat = Some s.
Proof.
  intros Hwf Hpc Hop Hr Hv Hv8 Hs Hs8.
  pose proof Hwf as [Hram Hreg].
  pose proof (land_255_range (s - 1)) as Hs1.
  set (s1 := Z.land (s - 1) 0xFF) in *.
  assert (Hlt : (Z.to_nat r < length (reg c))%nat) by (rewrite Hreg; lia).
  (* the value PUSH reads from register r, after SP was decremented *)
  set (v' := if decide (r = 7) then s1 else v).
  assert (Hv' : <[7%nat := s1]> (reg c) !! Z.to_nat r = Some v').
  { unfold v'. case_decide as Hr7.
    - subst r. apply list_lookup_insert_eq. rewrite Hreg. cbn. lia.
    - rewrite list_lookup_insert_ne by lia. done. }
  assert (Hv'8 : Z.land v' 0xFF = v').
  { rewrite land_255_mod. apply Z.mod_small. unfold v'. case_decide; lia. }
  eexists. split; [apply (process_PUSH_spec c r v' s); done || lia |].
  intros p Hp Hop2. cbn [ram set_ram set_mdr set_reg] in Hop2.
  set (s2 := if decide (r = 7) then v' else s1).
  eexists. split.
  - apply (process_POP_spec _ r v' s1 s2); fields; try done; try lia.
    + split; cbn; rewrite length_insert; done.
    + apply list_lookup_insert_eq. rewrite Hreg. lia.
    + rewrite Hv'8. apply list_lookup_insert_eq. rewrite Hram. lia.
    + unfold s2. case_decide as Hr7.
      * subst r. apply list_lookup_insert_eq.
        rewrite length_insert, Hreg. cbn. lia.
      * rewrite list_lookup_insert_ne by lia.
        apply list_lookup_insert_eq. rewrite Hreg. lia.
  - fields.
    assert (Hback : Z.land (s2 + 1) 0xFF = s).
    { unfold s2, v'. case_decide; unfold s1;
        rewrite sp_round_trip; apply Z.mod_small; lia. }
    rewrite Hback. split.
    + destruct (decide (r = 7)) as [-> | Hr7].
      * rewrite list_lookup_insert_eq
          by (rewrite !length_insert, Hreg; cbn; lia).
        change (Z.to_nat 7) with 7%nat in Hv. congruence.
      * rewrite list_lookup_insert_ne by lia.
        rewrite list_lookup_insert_eq by (rewrite length_insert; lia).
        reflexivity.
    + apply list_lookup_insert_eq. rewrite !length_insert, Hreg. lia.
Qed.

Lemma PUSH_POP_round_trip_witness :
  exists c1,
    process_PUSH (set_reg [42; 0; 0; 0; 0; 0; 0; 244]
                    (load [PUSH; 0; POP; 0] init)) = Return tt c1
    /\ forall p, 0 <= p -> ram c1 !! Z.to_nat (p + 1) = Some 0 ->
       exists c2,
         process_POP (set_pc p c1) = Return tt c2
         /\ reg c2 !! Z.to_nat 0 = Some 42
         /\ reg c2 !! 7%nat = Some 244.
Proof.
  apply (PUSH_POP_round_trip
           (set_reg [42; 0; 0; 0; 0; 0; 0; 244] (load [PUSH; 0; POP; 0] init))
           0 42 244);
    [split; reflexivity | cbn; lia | reflexivity | lia
    | reflexivity | lia | reflexivity | lia].
Defined.

(** * One cycle of a known instruction *)

Lemma advance_spec (c : CPU) :
  advance c
  = Return tt (if Z.testbit (ir c) 4 then c
               else set_pc (pc c + (Z.land (Z.shiftr (ir c) 6) 3 + 1)) c).
Proof.
  unfold advance. exec. rewrite sets_pc_testbit.
  by destruct (Z.testbit (ir c) 4).
Qed.

Lemma cycle_known (c : CPU) (op : Z) (h : M unit) :
  0 <= pc c -> ram c !! Z.to_nat (pc c) = Some op ->
  branchtable !! op = Some h ->
  cycle c = (h ;; advance) (set_ir op c).
Proof.
  intros Hpc Hop Hh. unfold cycle, bind at 1.
  rewrite (fetch_in c op) by done. cbv beta iota.
  unfold bind at 1. rewrite (dispatch_known _ h) by done.
  reflexivity.
Qed.

(** * CALL and RET *)

Lemma process_CALL_spec (c : CPU) (s a v : Z) :
  wf c -> ir c = CALL -> 0 <= pc c -> reg c !! 7%nat = Some s ->
  <[Z.to_nat (Z.land (s - 1) 0xFF) := Z.land (pc c + 2) 0xFF]> (ram c)
    !! Z.to_nat (pc c + 1) = Some a ->
  0 <= a ->
  <[7%nat := Z.land (s - 1) 0xFF]> (reg c) !! Z.to_nat a = Some v ->
  process_CALL c
  = Return tt
      (set_pc v
         (set_ram (<[Z.to_nat (Z.land (s - 1) 0xFF)
                     := Z.land (pc c + 2) 0xFF]> (ram c))
            (set_reg (<[7%nat := Z.land (s - 1) 0xFF]> (reg c)) c))).
Proof.
  intros [Hram Hreg] Hir Hpc Hs Ha Ha0 Hv.
  pose proof (land_255_range (s - 1)) as Hs1.
  unfold process_CALL. exec.
  rewrite (reg_getitem_lookup 7 s) by (done || lia).
  rewrite reg_setitem_insert by (rewrite Hreg; lia). exec.
  rewrite (reg_getitem_lookup 7 (Z.land (s - 1) 0xFF)).
  2: lia.
  2:{ fields. apply list_lookup_insert_eq. rewrite Hreg. cbn. lia. }
  exec. rewrite Hir. change (Z.land (Z.shiftr CALL 6) 3 + 1) with 2.
  rewrite ram_write_in by (fields; rewrite Hram; lia). exec.
  rewrite (ram_read_in _ a) by (done || lia).
  rewrite (reg_getitem_lookup a v) by done.
  reflexivity.
Qed.

Lemma process_RET_spec (c : CPU) (s x : Z) :
  wf c -> reg c !! 7%nat = Some s -> 0 <= s -> ram c !! Z.to_nat s = Some x ->
  process_RET c
  = Return tt (set_reg (<[7%nat := Z.land (s + 1) 0xFF]> (reg c)) (set_pc x c)).
Proof.
  intros [Hram Hreg] Hs Hs0 Hx.
  unfold process_RET. exec.
  rewrite (reg_getitem_lookup 7 s) by (done || lia).
  rewrite (ram_read_in _ x) by done. exec.
  rewrite (reg_getitem_lookup 7 s) by (done || lia).
  rewrite reg_setitem_insert by (fields; rewrite Hreg; lia).
  reflexivity.
Qed.

Lemma branchtable_CALL : branchtable !! CALL = Some process_CALL.
Proof. reflexivity. Qed.

Lemma branchtable_RET : branchtable !! RET = Some process_RET.
Proof. reflexivity. Qed.

Lemma cycle_RET (c : CPU) (s x : Z) :
  wf c -> 0 <= pc c -> ram c !! Z.to_nat (pc c) = Some RET ->
  reg c !! 7%nat = Some s -> 0 <= s -> ram c !! Z.to_nat s = Some x ->
  cycle c
  = Return tt (set_reg (<[7%nat := Z.land (s + 1) 0xFF]> (reg c))
                 (set_pc x (set_ir RET c))).
Proof.
  intros Hwf Hpc Hop Hs Hs0 Hx.
  rewrite (cycle_known c RET process_RET) by (done || apply branchtable_RET).
  unfold bind.
  rewrite (process_RET_spec _ s x) by first [exact Hwf | fields; done].
  rewrite advance_spec. reflexivity.
Qed.

(** C7 (as amended): a cycle executing CALL sets SP to [(SP - 1) mod 256],
    stores [(PC + 2) mod 256] in the cell SP now addresses (2 being the
    instruction size of CALL) and sets PC to the register named by the
    operand byte, read after the store.  A cycle executing RET sets PC to
    the cell addressed by SP and SP to [(SP + 1) mod 256].  Hence a RET
    executed in a later state whose SP is the one the CALL left and whose
    stack cell still holds what the CALL wrote sets PC to
    [(PC_call + 2) mod 256], which is the address of the instruction after
    the CALL whenever that address is inside memory, and restores SP. *)
Theorem CALL_RET_return_address (c : CPU) (s a v : Z) :
  wf c -> 0 <= pc c -> ram c !! Z.to_nat (pc c) = Some CALL ->
  reg c !! 7%nat = Some s ->
  <[Z.to_nat ((s - 1) mod 256) := (pc c + 2) mod 256]> (ram c)
    !! Z.to_nat (pc c + 1) = Some a ->
  0 <= a ->
  <[7%nat := (s - 1) mod 256]> (reg c) !! Z.to_nat a = Some v ->
  exists c1,
    cycle c = Return tt c1
    /\ instruction_size (set_ir CALL c) = Return 2 (set_ir CALL c)
    /\ reg c1 !! 7%nat = Some ((s - 1) mod 256)
    /\ ram c1 !! Z.to_nat ((s - 1) mod 256) = Some ((pc c + 2) mod 256)
    /\ pc c1 = v
    /\ (forall c2 s2 x,
          wf c2 -> 0 <= pc c2 -> ram c2 !! Z.to_nat (pc c2) = Some RET ->
          reg c2 !! 7%nat = Some s2 -> 0 <= s2 ->
          ram c2 !! Z.to_nat s2 = Some x ->
          exists c3, cycle c2 = Return tt c3
                     /\ pc c3 = x
                     /\ reg c3 !! 7%nat = Some ((s2 + 1) mod 256))
    /\ (forall c2,
          wf c2 -> 0 <= pc c2 -> ram c2 !! Z.to_nat (pc c2) = Some RET ->
          reg c2 !! 7%nat = reg c1 !! 7%nat ->
          ram c2 !! Z.to_nat ((s - 1) mod 256)
            = ram c1 !! Z.to_nat ((s - 1) mod 256) ->
          exists c3, cycle c2 = Return tt c3
                     /\ pc c3 = (pc c + 2) mod 256
                     /\ (pc c + 2 < 256 -> pc c3 = pc c + 2)
                     /\ reg c3 !! 7%nat = Some (s mod 256)).
Proof.
  intros Hwf Hpc Hop Hs Ha Ha0 Hv.
  pose proof Hwf as [Hram Hreg].
  rewrite <- (land_255_mod (s - 1)), <- (land_255_mod (pc c + 2)) in Ha.
  rewrite <- (land_255_mod (s - 1)) in Hv.
  pose proof (land_255_range (s - 1)) as Hs1.
  assert (HRET : forall c2 s2 x,
            wf c2 -> 0 <= pc c2 -> ram c2 !! Z.to_nat (pc c2) = Some RET ->
            reg c2 !! 7%nat = Some s2 -> 0 <= s2 ->
            ram c2 !! Z.to_nat s2 = Some x ->
            exists c3, cycle c2 = Return tt c3
                       /\ pc c3 = x
                       /\ reg c3 !! 7%nat = Some ((s2 + 1) mod 256)).
  { intros c2 s2 x Hwf2 Hpc2 Hop2 Hs2 Hs20 Hx.
    eexists. split; [by apply (cycle_RET c2 s2 x) |]. fields.
    split; [done |]. rewrite <- land_255_mod.
    apply list_lookup_insert_eq. destruct Hwf2 as [_ ->]. lia. }
  eexists. split.
  { rewrite (cycle_known c CALL process_CALL) by (done || apply branchtable_CALL).
    unfold bind.
    rewrite (process_CALL_spec _ s a v) by first [exact Hwf | fields; done].
    rewrite advance_spec. fields.
    change (Z.testbit CALL 4) with true. cbv iota. reflexivity. }
  fields. rewrite <- (land_255_mod (s - 1)), <- (land_255_mod (pc c + 2)).
  split; [reflexivity |].
  split; [apply list_lookup_insert_eq; rewrite Hreg; lia |].
  split; [apply list_lookup_insert_eq; rewrite Hram; lia |].
  split; [done |]. split; [exact HRET |].
  intros c2 Hwf2 Hpc2 Hop2 Hs2 Hx.
  cbn [reg ram set_pc set_ram set_reg set_ir] in Hs2, Hx.
  rewrite list_lookup_insert_eq in Hs2 by (rewrite Hreg; lia).
  rewrite list_lookup_insert_eq in Hx by (rewrite Hram; lia).
  destruct (HRET c2 _ _ Hwf2 Hpc2 Hop2 Hs2 ltac:(lia) Hx) as (c3 & Hc & Hp & Hr).
  exists c3. split; [done |].
  split; [done |].
  split; [intros Hlt; rewrite Hp, land_255_mod; apply Z.mod_small; lia |].
  rewrite Hr. f_equal.
  rewrite <- (land_255_mod (_ + 1)). apply sp_round_trip.
Qed.

Lemma CALL_RET_return_address_witness :
  exists c1,
    cycle (set_reg [4; 0; 0; 0; 0; 0; 0; 244] (load [CALL; 0; HLT; 0; RET] init))
    = Return tt c1
    /\ pc c1 = 4 /\ ram c1 !! 243%nat = Some 2
    /\ exists c3, cycle c1 = Return tt c3 /\ pc c3 = 2.
Proof.
  destruct (CALL_RET_return_address
              (set_reg [4; 0; 0; 0; 0; 0; 0; 244]
                 (load [CALL; 0; HLT; 0; RET] init)) 244 0 4)
    as (c1 & Hc1 & _ & Hsp & Hslot & Hpc1 & _ & Hret);
    [split; reflexivity | cbn; lia | reflexivity | reflexivity | reflexivity
    | lia | reflexivity |].
  exists c1. split; [exact Hc1 |]. split; [exact Hpc1 |].
  split; [exact Hslot |].
  pose proof Hc1 as E. vm_compute in E. injection E as E.
  destruct (Hret c1) as (c3 & Hc3 & Hpc3 & _); try reflexivity;
    [subst c1; split; reflexivity | subst c1; cbn; lia
    | subst c1; reflexivity |].
  exists c3. split; [exact Hc3 | exact Hpc3].
Defined.

(** C7 fails as stated: the CALL at address 254 does not store
    [PC + instruction_size(CALL)] = 256 in the stack cell but 0, and the RET
    that follows sets PC to 0, not to 256. *)
Lemma CALL_at_254_wraps_return_address :
  exists c c1 c3,
    cycles 3 (load call_at_254_program init) = Return tt c
    /\ pc c = 254 /\ ram c !! 254%nat = Some CALL
    /\ cycle c = Return tt c1
    /\ reg c1 !! 7%nat = Some 243
    /\ ram c1 !! 243%nat = Some 0
    /\ ram c1 !! 243%nat <> Some (pc c + 2)
    /\ ram c1 !! Z.to_nat (pc c1) = Some RET
    /\ cycle c1 = Return tt c3
    /\ pc c3 = 0
    /\ pc c3 <> pc c + 2.
Proof.
  do 3 eexists.
  split; [vm_compute; reflexivity |].
  split; [reflexivity |]. split; [reflexivity |].
  split; [vm_compute; reflexivity |].
  split; [reflexivity |]. split; [reflexivity |].
  split; [vm_compute; discriminate |].
  split; [reflexivity |].
  split; [vm_compute; reflexivity |].
  split; [reflexivity |]. vm_compute. discriminate.
Qed.

(** * Comparison flags and conditional jumps *)

(** Only CMP writes [fl]. *)
Lemma handlers_same_fl :
  Forall (fun e => e.1 <> CMP -> respects same_fl e.2) handlers.
Proof.
  unfold handlers.
  repeat (apply Forall_cons; split); [.. | constructor];
    cbn [fst snd]; intros Hop; try (exfalso; apply Hop; reflexivity).
  - apply respects_HLT; field_frame.
  - apply respects_LDI; field_frame.
  - apply respects_PRN; field_frame.
  - apply respects_MUL; field_frame.
  - apply respects_PUSH; field_frame.
  - apply respects_POP; field_frame.
  - apply respects_CALL; field_frame.
  - apply respects_RET; field_frame.
  - apply respects_ADD; field_frame.
  - apply respects_JMP; field_frame.
  - apply respects_JEQ; field_frame.
  - apply respects_JNE; field_frame.
Qed.

Ltac fl_frame :=
  first [ by intros
        | unfold fl_step; intros; cbn in *; intuition congruence ].

Lemma handlers_fl_step :
  Forall (fun e => respects fl_step e.2) handlers.
Proof.
  unfold handlers.
  repeat (apply Forall_cons; split); [.. | constructor]; cbn [snd].
  - apply respects_HLT; fl_frame.
  - apply respects_LDI; fl_frame.
  - apply respects_PRN; fl_frame.
  - apply respects_MUL; fl_frame.
  - apply respects_PUSH; fl_frame.
  - apply respects_POP; fl_frame.
  - apply respects_CALL; fl_frame.
  - apply respects_RET; fl_frame.
  - apply respects_ADD; fl_frame.
  - apply respects_CMP; fl_frame.
  - apply respects_JMP; fl_frame.
  - apply respects_JEQ; fl_frame.
  - apply respects_JNE; fl_frame.
Qed.

Lemma cycle_fl_step : respects fl_step cycle.
Proof.
  assert (Htrans : forall c1 c2 c3,
            fl_step c1 c2 -> fl_step c2 c3 -> fl_step c1 c3) by fl_frame.
  unfold cycle.
  apply (respects_bind fl_step); [exact Htrans | | intros _].
  { unfold fetch.
    apply (respects_bind fl_step); [exact Htrans | | intros p].
    { apply (respects_gets fl_step). fl_frame. }
    apply (respects_bind fl_step); [exact Htrans | | intros i].
    { apply (respects_ram_read fl_step); fl_frame. }
    apply (respects_modify fl_step). fl_frame. }
  apply (respects_bind fl_step); [exact Htrans | | intros _].
  { apply (respects_dispatch fl_step); try fl_frame.
    intros op h Hh.
    exact (branchtable_Forall (fun _ h => respects fl_step h) _ _
             handlers_fl_step Hh). }
  apply respects_advance; fl_frame.
Qed.

(** From a machine as [__init__] and [load] leave it, [fl] is only ever 0
    or one of the three flag values. *)
Lemma reachable_fl (program : list Z) (c : CPU) :
  reachable (load program init) c ->
  fl c = 0 \/ fl c = 1 \/ fl c = 2 \/ fl c = 4.
Proof.
  induction 1 as [|c Hc IH Hh]; [by left |].
  pose proof (cycle_fl_step c) as Hstep. unfold fl_step in Hstep.
  intuition congruence.
Qed.

Lemma process_CMP_spec (c : CPU) (ra rb x y : Z) :
  operands c ra rb -> 0 <= ra -> 0 <= rb ->
  reg c !! Z.to_nat ra = Some x -> reg c !! Z.to_nat rb = Some y ->
  process_CMP c
  = Return tt (set_fl (if x <? y then 4 else if x >? y then 2 else 1) c).
Proof.
  intros (Hpc & Hoa & Hob) Hra Hrb Hx Hy.
  unfold process_CMP. exec.
  rewrite (ram_read_in _ ra) by (done || lia).
  rewrite (reg_getitem_lookup _ x) by done.
  rewrite (ram_read_in _ rb) by (done || lia).
  rewrite (reg_getitem_lookup _ y) by done.
  destruct (x <? y); [reflexivity |]. exec.
  rewrite (ram_read_in _ ra) by (done || lia).
  rewrite (reg_getitem_lookup _ x) by done.
  rewrite (ram_read_in _ rb) by (done || lia).
  rewrite (reg_getitem_lookup _ y) by done.
  by destruct (x >? y).
Qed.

Lemma process_JMP_spec (c : CPU) (a v : Z) :
  0 <= pc c -> ram c !! Z.to_nat (pc c + 1) = Some a -> 0 <= a ->
  reg c !! Z.to_nat a = Some v ->
  process_JMP c = Return tt (set_pc v c).
Proof.
  intros Hpc Ha Ha0 Hv. unfold process_JMP. exec.
  rewrite (ram_read_in _ a) by (done || lia).
  by rewrite (reg_getitem_lookup _ v).
Qed.

Lemma branchtable_CMP : branchtable !! CMP = Some process_CMP.
Proof. reflexivity. Qed.

Lemma branchtable_JEQ : branchtable !! JEQ = Some process_JEQ.
Proof. reflexivity. Qed.

Lemma branchtable_JNE : branchtable !! JNE = Some process_JNE.
Proof. reflexivity. Qed.

(** C8: with the first operand byte naming a register that holds [x]:
    a cycle executing CMP against a register holding [y] sets [fl] to a
    value with exactly one of the three flag bits, equal when [x = y],
    greater when [x > y], less when [x < y] (and advances PC by 3); a cycle
    executing JEQ sets PC to [x] when [fl] is the equal flag and to
    [PC + 2], its instruction size, otherwise; a cycle executing JNE sets PC
    to [x] when [fl] is not the equal flag and to [PC + 2] otherwise.  No
    handler other than CMP changes [fl], so the flag tested is the one the
    last CMP set; and in every state reached from a loaded machine the test
    [fl == 1] of the two jumps is the test of the equal bit. *)
Theorem CMP_flags_JEQ_JNE_branch (c : CPU) (ra x : Z) :
  0 <= pc c -> ram c !! Z.to_nat (pc c + 1) = Some ra -> 0 <= ra ->
  reg c !! Z.to_nat ra = Some x ->
  (forall rb y,
     ram c !! Z.to_nat (pc c) = Some CMP ->
     ram c !! Z.to_nat (pc c + 2) = Some rb -> 0 <= rb ->
     reg c !! Z.to_nat rb = Some y ->
     exists f,
       cycle c = Return tt (set_pc (pc c + 3) (set_fl f (set_ir CMP c)))
       /\ flag_E f = (x =? y) /\ flag_G f = (x >? y) /\ flag_L f = (x <? y)
       /\ ((flag_E f = true /\ flag_G f = false /\ flag_L f = false)
           \/ (flag_E f = false /\ flag_G f = true /\ flag_L f = false)
           \/ (flag_E f = false /\ flag_G f = false /\ flag_L f = true))
       /\ (f = 1 <-> x = y))
  /\ (ram c !! Z.to_nat (pc c) = Some JEQ ->
      instruction_size (set_ir JEQ c) = Return 2 (set_ir JEQ c)
      /\ cycle c
         = Return tt (set_pc (if fl c =? 1 then x else pc c + 2)
                        (set_ir JEQ c)))
  /\ (ram c !! Z.to_nat (pc c) = Some JNE ->
      instruction_size (set_ir JNE c) = Return 2 (set_ir JNE c)
      /\ cycle c
         = Return tt (set_pc (if fl c =? 1 then pc c + 2 else x)
                        (set_ir JNE c)))
  /\ (forall op h c', branchtable !! op = Some h -> op <> CMP ->
        fl (state_of (h c')) = fl c')
  /\ (forall program, reachable (load program init) c ->
        (fl c =? 1) = flag_E (fl c)).
Proof.
  intros Hpc Ha Hra Hx. split; [| split; [| split; [| split]]].
  5:{ intros program Hreach.
      destruct (reachable_fl program c Hreach) as [-> | [-> | [-> | ->]]];
        reflexivity. }
  - intros rb y Hop Hb Hrb Hy.
    exists (if x <? y then 4 else if x >? y then 2 else 1). split.
    + rewrite (cycle_known c CMP process_CMP) by (done || apply branchtable_CMP).
      unfold bind.
      rewrite (process_CMP_spec _ ra rb x y) by (done || (split; done)).
      rewrite advance_spec. reflexivity.
    + rewrite Z.gtb_ltb.
      destruct (Z.ltb_spec x y), (Z.ltb_spec y x), (Z.eqb_spec x y);
        try lia; cbn; intuition (auto; lia).
  - intros Hop. split; [reflexivity |].
    rewrite (cycle_known c JEQ process_JEQ) by (done || apply branchtable_JEQ).
    unfold bind, process_JEQ. exec. destruct (fl c =? 1).
    + rewrite (process_JMP_spec _ ra x) by done.
      rewrite advance_spec. reflexivity.
    + exec. rewrite advance_spec. reflexivity.
  - intros Hop. split; [reflexivity |].
    rewrite (cycle_known c JNE process_JNE) by (done || apply branchtable_JNE).
    unfold bind, process_JNE. exec. destruct (fl c =? 1); cbn [negb].
    + exec. rewrite advance_spec. reflexivity.
    + rewrite (process_JMP_spec _ ra x) by done.
      rewrite advance_spec. reflexivity.
  - intros op h c' Hh Hop.
    exact (branchtable_Forall (fun i h => i <> CMP -> respects same_fl h)
             _ _ handlers_same_fl Hh Hop c').
Qed.

Lemma CMP_flags_JEQ_JNE_branch_witness :
  cycle (set_pc 9 (set_fl 1 (set_reg [11; 11; 0; 0; 0; 0; 0; 244]
                               (load cmp_jeq_program init))))
  = Return tt
      (set_pc 11 (set_ir JEQ
                    (set_pc 9 (set_fl 1 (set_reg [11; 11; 0; 0; 0; 0; 0; 244]
                                           (load cmp_jeq_program init)))))).
Proof.
  destruct (CMP_flags_JEQ_JNE_branch
              (set_pc 9 (set_fl 1 (set_reg [11; 11; 0; 0; 0; 0; 0; 244]
                                     (load cmp_jeq_program init)))) 0 11)
    as (_ & H & _); [cbn; lia | reflexivity | lia | reflexivity |].
  destruct (H eq_refl) as [_ ->]. reflexivity.
Defined.

(** * The trace line on a sample machine *)

Example trace_sample :
  stdout (state_of (trace (load [LDI; 0; 8] init)))
  = ["TRACE: 00 | 82 00 08 | 00 00 00 00 00 00 00 F4"].
Proof. vm_compute. reflexivity. Qed.

Example hex02_samples :
  map hex02 [0; 9; 10; 255; 256; -1; -255] = ["00"; "09"; "0A"; "FF"; "100"; "-1"; "-FF"].
Proof. vm_compute. reflexivity. Qed.

(** * The loader *)

Lemma load_from_layout (program r : list Z) (address : nat) :
  (address <= length r)%nat ->
  load_from address program r
  = take (length r)
      (take address r ++ program ++ drop (address + length program) r).
Proof.
  revert r address.
  induction program as [|x program IH]; intros r address Hle; cbn [load_from].
  - rewrite Nat.add_0_r. cbn [app]. rewrite take_drop.
    by rewrite take_ge.
  - case_decide as Hlt.
    + rewrite IH by (rewrite length_insert; lia).
      rewrite length_insert. f_equal.
      rewrite (take_S_r _ _ x) by (by apply list_lookup_insert_eq).
      rewrite take_insert_ge by lia.
      rewrite drop_insert_lt by lia.
      rewrite <- app_assoc. cbn [app length].
      by replace (address + S (length program))%nat
        with (S address + length program)%nat by lia.
    + assert (address = length r) as -> by lia.
      rewrite IH by lia. rewrite (take_ge r) by lia.
      by rewrite !take_app_length.
Qed.

Lemma load_length (program : list Z) (c : CPU) :
  length (ram (load program c)) = length (ram c).
Proof.
  unfold load. cbn [ram set_ram]. rewrite load_from_layout by lia.
  rewrite length_take, !length_app, length_take, length_drop. lia.
Qed.

(** X1: [load] lays the program out from address 0 over the old contents
    and silently drops whatever does not fit in the array; it stores the
    values as they are, unmasked, and touches no other attribute.  A value
    loaded at an address below 256 is read back as it was given. *)
Theorem load_layout (program : list Z) (c : CPU) :
  ram (load program c)
  = take (length (ram c)) (program ++ drop (length program) (ram c))
  /\ length (ram (load program c)) = length (ram c)
  /\ load program c = set_ram (ram (load program c)) c
  /\ (forall (i : nat) (v : Z),
        program !! i = Some v -> (i < length (ram c))%nat ->
        ram_read (Z.of_nat i) (load program c) = Return v (load program c))
  /\ (forall (i : nat) (v : Z),
        (length program <= i)%nat -> ram c !! i = Some v ->
        ram_read (Z.of_nat i) (load program c) = Return v (load program c)).
Proof.
  assert (Hlay : ram (load program c)
            = take (length (ram c))
                (program ++ drop (length program) (ram c))).
  { unfold load. cbn [ram set_ram].
    rewrite load_from_layout by lia. reflexivity. }
  split; [exact Hlay |]. split; [| split; [reflexivity |]].
  - apply load_length.
  - split.
    + intros i v Hi Hlt. apply ram_read_in; [lia |].
      rewrite Nat2Z.id, Hlay, lookup_take_lt by done.
      by rewrite lookup_app_l by (by eapply lookup_lt_Some).
    + intros i v Hge Hv. apply lookup_lt_Some in Hv as Hlt.
      apply ram_read_in; [lia |].
      rewrite Nat2Z.id, Hlay, lookup_take_lt by done.
      rewrite lookup_app_r by done. rewrite lookup_drop.
      rewrite <- Hv. f_equal. lia.
Qed.

Lemma load_layout_witness :
  ram_read 2 (load [LDI; 0; 300] init) = Return 300 (load [LDI; 0; 300] init).
Proof.
  destruct (load_layout [LDI; 0; 300] init) as (_ & _ & _ & H & _).
  apply (H 2%nat 300); [reflexivity | cbn; lia].
Defined.

(** * Memory and stack pointer round trips *)

(** X2: a write at an address of the array followed by a read at the same
    address returns the value modulo 256; the write prints nothing and
    changes no other cell, so a read elsewhere returns what it returned
    before. *)
Theorem ram_write_read_round_trip (c : CPU) (mar v : Z) :
  0 <= mar < Z.of_nat (length (ram c)) ->
  exists c',
    ram_write mar v c = Return tt c'
    /\ ram_read mar c' = Return (v mod 256) c'
    /\ stdout c' = stdout c
    /\ length (ram c') = length (ram c)
    /\ forall mar' x, 0 <= mar' -> mar' <> mar ->
         ram_read mar' c = Return x c -> ram_read mar' c' = Return x c'.
Proof.
  intros Hm. eexists. split; [by apply ram_write_in |].
  split; [| split; [reflexivity | split]].
  - apply ram_read_in; [lia |]. fields. rewrite land_255_mod.
    apply list_lookup_insert_eq. lia.
  - fields. apply length_insert.
  - intros mar' x Hm' Hne Hread.
    destruct (decide (mar' < Z.of_nat (length (ram c)))) as [Hlt | Hge].
    + destruct (lookup_lt_is_Some_2 (ram c) (Z.to_nat mar')) as [y Hy];
        [lia |].
      rewrite (ram_read_in _ y) in Hread by done. injection Hread as ->.
      apply ram_read_in; [done |]. fields.
      rewrite list_lookup_insert_ne by lia. done.
    + destruct (int_str_ok mar') eqn:Hok;
        [| rewrite ram_read_huge in Hread by (done || lia); discriminate].
      rewrite ram_read_out in Hread by (done || lia).
      apply (f_equal state_of), (f_equal stdout) in Hread. cbn in Hread.
      apply (f_equal length) in Hread. rewrite length_app in Hread.
      cbn in Hread. lia.
Qed.

Lemma ram_write_read_round_trip_witness :
  exists c', ram_write 10 300 init = Return tt c'
             /\ ram_read 10 c' = Return (300 mod 256) c'.
Proof.
  destruct (ram_write_read_round_trip init 10 300) as (c' & Hw & Hr & _);
    [cbn; lia |].
  exists c'. split; [exact Hw | exact Hr].
Defined.

(** X3: assigning [a] to the [sp] property and reading it back gives
    [a mod 256], a value in [0,256); the assignment writes register 7 only. *)
Theorem sp_setter_getter (c : CPU) (a : Z) :
  length (reg c) = 8%nat ->
  (sp_setter a ;; sp) c
  = Return (a mod 256) (set_reg (<[7%nat := a mod 256]> (reg c)) c)
  /\ 0 <= a mod 256 < 256
  /\ forall i, i <> 7%nat ->
       reg (state_of (sp_setter a c)) !! i = reg c !! i.
Proof.
  intros Hreg. split; [| split].
  - exec. rewrite reg_setitem_insert by (rewrite Hreg; lia).
    change (Z.to_nat 7) with 7%nat. rewrite land_255_mod.
    rewrite (reg_getitem_lookup 7 (a mod 256)); [done | lia |].
    fields. apply list_lookup_insert_eq. rewrite Hreg. cbn. lia.
  - apply Z.mod_pos_bound. lia.
  - intros i Hi. unfold sp_setter.
    rewrite reg_setitem_insert by (rewrite Hreg; lia).
    cbn [state_of]. fields. by rewrite list_lookup_insert_ne.
Qed.

Lemma sp_setter_getter_witness :
  (sp_setter 300 ;; sp) init
  = Return 44 (set_reg (<[7%nat := 44]> (reg init)) init).
Proof. apply (sp_setter_getter init 300). reflexivity. Defined.

(** * Operand bytes that name no register *)

Lemma py_index_out (n i : Z) : ~ (- n <= i < n) -> py_index n i = None.
Proof.
  intros H. unfold py_index. rewrite !decide_False by lia. done.
Qed.

Lemma reg_getitem_out (i : Z) (c : CPU) :
  length (reg c) = 8%nat -> ~ (-8 <= i < 8) -> reg_getitem i c = IndexError c.
Proof.
  intros Hreg Hi. unfold reg_getitem, list_getitem.
  by rewrite py_index_out by (rewrite Hreg; lia).
Qed.

Lemma reg_setitem_out (i v : Z) (c : CPU) :
  length (reg c) = 8%nat -> ~ (-8 <= i < 8) -> reg_setitem i v c = IndexError c.
Proof.
  intros Hreg Hi. unfold reg_setitem, list_setitem.
  by rewrite py_index_out by (rewrite Hreg; lia).
Qed.

Lemma reg_getitem_valid (i : Z) (c : CPU) :
  length (reg c) = 8%nat -> -8 <= i < 8 ->
  exists v, reg_getitem i c = Return v c.
Proof.
  intros Hreg Hi. unfold reg_getitem, list_getitem.
  destruct (decide (0 <= i)).
  - rewrite py_index_nonneg by (rewrite Hreg; lia).
    destruct (lookup_lt_is_Some_2 (reg c) (Z.to_nat i)) as [v ->];
      [lia | by exists v].
  - rewrite py_index_negative by (rewrite Hreg; lia).
    destruct (lookup_lt_is_Some_2 (reg c) (Z.to_nat (i + Z.of_nat (length (reg c)))))
      as [v ->]; [rewrite Hreg; lia | by exists v].
Qed.

Lemma branchtable_known :
  branchtable !! HLT = Some process_HLT
  /\ branchtable !! LDI = Some process_LDI
  /\ branchtable !! PRN = Some process_PRN
  /\ branchtable !! MUL = Some process_MUL
  /\ branchtable !! ADD = Some process_ADD
  /\ branchtable !! PUSH = Some process_PUSH
  /\ branchtable !! POP = Some process_POP
  /\ branchtable !! JMP = Some process_JMP.
Proof. repeat split; reflexivity. Qed.

Lemma run_IndexError (fuel : nat) (c c' : CPU) :
  halted c = false -> cycle c = IndexError c' ->
  run (S fuel) c = Some (IndexError c').
Proof. intros Hh Hc. rewrite run_running by done. by rewrite Hc. Qed.

(** X4: when the first operand byte of LDI, PRN, MUL, ADD, CMP or JMP is
    not a register index (it lies outside [-8,8), as every byte from 8 to
    255 does), the handler raises [IndexError]; [run] does not catch it, so
    the run ends there with nothing printed and nothing changed but [ir].
    The same holds for MUL, ADD and CMP when the first operand is an index
    and the second is not. *)
Theorem bad_register_operand_raises (c : CPU) (op a b : Z) (fuel : nat) :
  wf c -> halted c = false -> 0 <= pc c ->
  ram c !! Z.to_nat (pc c) = Some op ->
  ram c !! Z.to_nat (pc c + 1) = Some a ->
  ram c !! Z.to_nat (pc c + 2) = Some b ->
  (op ∈ [LDI; PRN; MUL; ADD; CMP; JMP] /\ ~ (-8 <= a < 8))
  \/ (op ∈ [MUL; ADD; CMP] /\ -8 <= a < 8 /\ ~ (-8 <= b < 8)) ->
  run (S fuel) c = Some (IndexError (set_ir op c))
  /\ report (@IndexError unit (set_ir op c)) = (1, stdout c).
Proof.
  intros [Hram Hreg] Hh Hpc Hop Ha Hb Hcase.
  split; [| reflexivity].
  apply run_IndexError; [done |].
  destruct branchtable_known as (_ & HLDI & HPRN & HMUL & HADD & _ & _ & HJMP).
  destruct Hcase as [[Hin Hbad] | (Hin & Hok & Hbad)].
  - repeat (apply elem_of_cons in Hin as [-> | Hin]);
      [.. | by apply elem_of_nil in Hin].
    + rewrite (cycle_known c LDI process_LDI) by done.
      unfold bind, process_LDI. exec.
      rewrite (ram_read_in _ b), (ram_read_in _ a) by (fields; (done || lia)).
      by rewrite reg_setitem_out by (fields; (done || lia)).
    + rewrite (cycle_known c PRN process_PRN) by done.
      unfold bind, process_PRN. exec.
      rewrite (ram_read_in _ a) by (fields; (done || lia)).
      by rewrite reg_getitem_out by (fields; (done || lia)).
    + rewrite (cycle_known c MUL process_MUL) by done.
      unfold bind, process_MUL. exec.
      rewrite (ram_read_in _ a) by (fields; (done || lia)).
      by rewrite reg_getitem_out by (fields; (done || lia)).
    + rewrite (cycle_known c ADD process_ADD) by done.
      unfold bind, process_ADD. exec.
      rewrite (ram_read_in _ a) by (fields; (done || lia)).
      by rewrite reg_getitem_out by (fields; (done || lia)).
    + rewrite (cycle_known c CMP process_CMP) by (done || apply branchtable_CMP).
      unfold bind, process_CMP. exec.
      rewrite (ram_read_in _ a) by (fields; (done || lia)).
      by rewrite reg_getitem_out by (fields; (done || lia)).
    + rewrite (cycle_known c JMP process_JMP) by done.
      unfold bind, process_JMP. exec.
      rewrite (ram_read_in _ a) by (fields; (done || lia)).
      by rewrite reg_getitem_out by (fields; (done || lia)).
  - destruct (reg_getitem_valid a (set_ir MUL c) Hreg Hok) as [x Hx].
    assert (Hx' : forall i, reg_getitem a (set_ir i c) = Return x (set_ir i c)).
    { intros i. unfold reg_getitem in *. cbn [reg set_ir] in *.
      destruct (list_getitem (reg c) a); by simplify_eq. }
    repeat (apply elem_of_cons in Hin as [-> | Hin]);
      [.. | by apply elem_of_nil in Hin].
    + rewrite (cycle_known c MUL process_MUL) by done.
      unfold bind, process_MUL. exec.
      rewrite (ram_read_in _ a) by (fields; (done || lia)). rewrite Hx'.
      rewrite (ram_read_in _ b) by (fields; (done || lia)).
      by rewrite reg_getitem_out by (fields; (done || lia)).
    + rewrite (cycle_known c ADD process_ADD) by done.
      unfold bind, process_ADD. exec.
      rewrite (ram_read_in _ a) by (fields; (done || lia)). rewrite Hx'.
      rewrite (ram_read_in _ b) by (fields; (done || lia)).
      by rewrite reg_getitem_out by (fields; (done || lia)).
    + rewrite (cycle_known c CMP process_CMP) by (done || apply branchtable_CMP).
      unfold bind, process_CMP. exec.
      rewrite (ram_read_in _ a) by (fields; (done || lia)). rewrite Hx'.
      rewrite (ram_read_in _ b) by (fields; (done || lia)).
      by rewrite reg_getitem_out by (fields; (done || lia)).
Qed.

Lemma bad_register_operand_raises_witness :
  run 1 (load [LDI; 8; 1] init)
  = Some (IndexError (set_ir LDI (load [LDI; 8; 1] init))).
Proof.
  apply (bad_register_operand_raises (load [LDI; 8; 1] init) LDI 8 1 0);
    [split; reflexivity | reflexivity | cbn; lia | reflexivity | reflexivity
    | reflexivity |].
  left. split; [apply list_elem_of_In; cbn; tauto | lia].
Defined.

(** X5: the stack instructions do their first steps before they look the
    register up, and nothing undoes them when the lookup raises: PUSH with
    an operand byte that names no register ends in [IndexError] with SP
    already decremented, CALL with SP decremented and the return address
    stored, POP with the popped value in [mdr] and SP not yet incremented. *)
Theorem stack_instruction_bad_register (c : CPU) (a s : Z) (fuel : nat) :
  wf c -> halted c = false -> 0 <= pc c ->
  reg c !! 7%nat = Some s -> ~ (-8 <= a < 8) ->
  (ram c !! Z.to_nat (pc c) = Some PUSH ->
   ram c !! Z.to_nat (pc c + 1) = Some a ->
   run (S fuel) c
   = Some (IndexError
             (set_reg (<[7%nat := (s - 1) mod 256]> (reg c)) (set_ir PUSH c))))
  /\ (ram c !! Z.to_nat (pc c) = Some CALL ->
      <[Z.to_nat ((s - 1) mod 256) := (pc c + 2) mod 256]> (ram c)
        !! Z.to_nat (pc c + 1) = Some a ->
      run (S fuel) c
      = Some (IndexError
                (set_ram (<[Z.to_nat ((s - 1) mod 256)
                            := (pc c + 2) mod 256]> (ram c))
                   (set_reg (<[7%nat := (s - 1) mod 256]> (reg c))
                      (set_ir CALL c)))))
  /\ (forall x,
        ram c !! Z.to_nat (pc c) = Some POP ->
        ram c !! Z.to_nat (pc c + 1) = Some a ->
        0 <= s -> ram c !! Z.to_nat s = Some x ->
        run (S fuel) c = Some (IndexError (set_mdr x (set_ir POP c)))).
Proof.
  intros [Hram Hreg] Hh Hpc Hs Hbad.
  pose proof (land_255_range (s - 1)) as Hs1.
  destruct branchtable_known as (_ & _ & _ & _ & _ & HPUSH & HPOP & _).
  rewrite <- (land_255_mod (s - 1)), <- (land_255_mod (pc c + 2)).
  split; [| split].
  - intros Hop Ha. apply run_IndexError; [done |].
    rewrite (cycle_known c PUSH process_PUSH) by done.
    unfold bind, process_PUSH. exec.
    rewrite (reg_getitem_lookup 7 s) by (fields; (done || lia)).
    rewrite reg_setitem_insert by (fields; rewrite Hreg; lia). exec.
    rewrite (ram_read_in _ a) by (fields; (done || lia)).
    rewrite reg_getitem_out; [done | | done].
    fields. by rewrite length_insert.
  - intros Hop Ha. apply run_IndexError; [done |].
    rewrite (cycle_known c CALL process_CALL) by (done || apply branchtable_CALL).
    unfold bind, process_CALL. exec.
    rewrite (reg_getitem_lookup 7 s) by (fields; (done || lia)).
    rewrite reg_setitem_insert by (fields; rewrite Hreg; lia). exec.
    rewrite (reg_getitem_lookup 7 (Z.land (s - 1) 0xFF)).
    2: lia.
    2:{ fields. apply list_lookup_insert_eq. rewrite Hreg. cbn. lia. }
    exec. change (Z.land (Z.shiftr CALL 6) 3 + 1) with 2.
    rewrite ram_write_in by (fields; rewrite Hram; lia). exec.
    rewrite (ram_read_in _ a) by (fields; (done || lia)).
    rewrite reg_getitem_out; [done | | done].
    fields. by rewrite length_insert.
  - intros x Hop Ha Hs0 Hx. apply run_IndexError; [done |].
    rewrite (cycle_known c POP process_POP) by done.
    unfold bind, process_POP. exec.
    rewrite (reg_getitem_lookup 7 s) by (fields; (done || lia)).
    rewrite (ram_read_in _ x) by (fields; (done || lia)). exec.
    rewrite (ram_read_in _ a) by (fields; (done || lia)).
    rewrite reg_setitem_out; [done | done | done].
Qed.

Lemma stack_instruction_bad_register_witness :
  run 1 (load [PUSH; 9] init)
  = Some (IndexError
            (set_reg (<[7%nat := 243]> (reg init))
               (set_ir PUSH (load [PUSH; 9] init)))).
Proof.
  destruct (stack_instruction_bad_register (load [PUSH; 9] init) 9 244 0)
    as (H & _); [split; reflexivity | reflexivity | cbn; lia | reflexivity
                | lia |].
  apply H; reflexivity.
Defined.

(** * How a run can end *)

Lemma no_exit_bind {A B} (m : M A) (k : A -> M B) :
  no_exit m -> (forall a, no_exit (k a)) -> no_exit (bind m k).
Proof.
  intros Hm Hk c. unfold bind. specialize (Hm c).
  destruct (m c) as [a c' | c' | n c' | c']; [apply Hk | done | done | done].
Qed.

Lemma no_exit_format_int (v : Z) : no_exit (format_int v).
Proof. intros c. unfold format_int. by destruct (int_str_ok v). Qed.

Lemma no_exit_ret {A} (a : A) : no_exit (ret a).
Proof. by intros c. Qed.

Lemma no_exit_gets {A} (f : CPU -> A) : no_exit (gets f).
Proof. by intros c. Qed.

Lemma no_exit_modify (f : CPU -> CPU) : no_exit (modify f).
Proof. by intros c. Qed.

Lemma no_exit_print (s : string) : no_exit (print s).
Proof. by intros c. Qed.

Lemma no_exit_reg_getitem (i : Z) : no_exit (reg_getitem i).
Proof. intros c. unfold reg_getitem. by destruct (list_getitem _ _). Qed.

Lemma no_exit_reg_setitem (i v : Z) : no_exit (reg_setitem i v).
Proof. intros c. unfold reg_setitem. by destruct (list_setitem _ _ _). Qed.

Lemma no_exit_ram_read (mar : Z) : no_exit (ram_read mar).
Proof.
  intros c. unfold ram_read, bind, gets, format_int.
  destruct (_ && _); [by destruct (list_getitem _ _) |].
  by destruct (int_str_ok mar).
Qed.

Lemma no_exit_ram_write (mar v : Z) : no_exit (ram_write mar v).
Proof.
  intros c. unfold ram_write, bind, gets, format_int.
  destruct (_ && _); [by destruct (list_setitem _ _ _) |].
  by destruct (int_str_ok mar).
Qed.

Ltac no_exit_tac :=
  repeat first
    [ apply no_exit_ret | apply no_exit_gets | apply no_exit_modify
    | apply no_exit_print | apply no_exit_format_int
    | apply no_exit_reg_getitem
    | apply no_exit_reg_setitem | apply no_exit_ram_read
    | apply no_exit_ram_write
    | match goal with |- no_exit (if ?b then _ else _) => destruct b end
    | apply no_exit_bind; [| intros ?] ].

Lemma handlers_no_exit : Forall (fun e => no_exit e.2) handlers.
Proof.
  unfold handlers.
  repeat (apply Forall_cons; split); [.. | constructor]; cbn [snd];
    unfold process_HLT, process_LDI, process_PRN, process_MUL, process_PUSH,
      process_POP, process_CALL, process_RET, process_ADD, process_CMP,
      process_JEQ, process_JNE, process_JMP, op_a, op_b, sp, sp_setter,
      instruction_size;
    no_exit_tac.
Qed.

Lemma advance_no_exit : no_exit advance.
Proof. unfold advance, instruction_sets_pc, instruction_size. no_exit_tac. Qed.

Lemma fetch_no_exit : no_exit fetch.
Proof. unfold fetch. no_exit_tac. Qed.

Lemma cycle_exit (c c' : CPU) (n : Z) :
  cycle c = SystemExit n c' ->
  n = 1 /\ branchtable !! ir c' = None
  /\ exists out, stdout c' = out ++ [no_instruction (ir c')].
Proof.
  pose proof (fetch_no_exit c) as Hf.
  unfold cycle, bind at 1.
  destruct (fetch c) as [[] c1 | c1 | m c1 | c1]; try done.
  unfold bind at 1.
  destruct (branchtable !! ir c1) as [h|] eqn:Hh.
  - rewrite (dispatch_known _ h) by done.
    pose proof (branchtable_Forall (fun _ h => no_exit h) _ _
                  handlers_no_exit Hh c1) as Hne.
    destruct (h c1) as [[] c2 | c2 | m c2 | c2]; [| done | done | done].
    pose proof (advance_no_exit c2) as Ha. intros Hc. by rewrite Hc in Ha.
  - destruct (int_str_ok (ir c1)) eqn:Hok.
    + rewrite dispatch_unknown by done. intros [= <- <-].
      split; [done |]. split; [done |]. by eexists.
    + by rewrite dispatch_unknown_huge by done.
Qed.

Lemma run_more_fuel (fuel k : nat) (c : CPU) (o : outcome unit) :
  run fuel c = Some o -> run (fuel + k) c = Some o.
Proof.
  revert c. induction fuel as [|fuel IH]; intros c; cbn [run Nat.add].
  - destruct (halted c) eqn:Hh; [| done].
    intros <-. destruct k; cbn [run]; by rewrite Hh.
  - destruct (halted c); [done |].
    destruct (cycle c) as [[] c1 | c1 | n c1 | c1];
      [apply IH | done | done | done].
Qed.

(** X6: [run] returns normally only with [halted] set; the only other ways
    out are an uncaught [IndexError], an uncaught [ValueError] (an integer
    too long to be printed) and [sys.exit], and the exit status is then
    always 1, the instruction register holds a value that is not in the
    branch table, and the last line printed names it.  Once a run has ended,
    more iterations change nothing. *)
Theorem run_outcomes (fuel : nat) (c : CPU) (o : outcome unit) :
  run fuel c = Some o ->
  match o with
  | Return _ c' => halted c' = true
  | IndexError _ => True
  | ValueError _ => True
  | SystemExit n c' =>
      n = 1 /\ branchtable !! ir c' = None
      /\ exists out, stdout c' = out ++ [no_instruction (ir c')]
  end
  /\ forall k, run (fuel + k) c = Some o.
Proof.
  intros Hrun. split; [| intros k; by apply run_more_fuel].
  revert c Hrun. induction fuel as [|fuel IH]; intros c; cbn [run];
    destruct (halted c) eqn:Hh; try done.
  - by intros [= <-].
  - by intros [= <-].
  - destruct (cycle c) as [[] c1 | c1 | n c1 | c1] eqn:Hc.
    + apply IH.
    + by intros [= <-].
    + intros [= <-]. by apply cycle_exit in Hc.
    + by intros [= <-].
Qed.

Lemma run_outcomes_witness :
  exists o, run 3 (load [LDI; 0; 1; HLT] init) = Some o
            /\ run (3 + 5) (load [LDI; 0; 1; HLT] init) = Some o.
Proof.
  destruct (run 3 (load [LDI; 0; 1; HLT] init)) as [o|] eqn:Ho;
    [| vm_compute in Ho; discriminate].
  exists o. split; [reflexivity |].
  by apply (run_outcomes 3 (load [LDI; 0; 1; HLT] init) o).
Defined.

(** X7: when the instruction at PC is HLT, [run] returns after that one
    cycle with [halted] set and PC one past the HLT, everything else but
    [ir] untouched; and running a halted machine again, with any number of
    iterations allowed, returns it as it is. *)
Theorem HLT_stops_the_loop (c : CPU) (fuel : nat) :
  halted c = false -> 0 <= pc c -> ram c !! Z.to_nat (pc c) = Some HLT ->
  run (S fuel) c
  = Some (Return tt (set_pc (pc c + 1) (set_halted true (set_ir HLT c))))
  /\ forall fuel',
       run fuel' (set_pc (pc c + 1) (set_halted true (set_ir HLT c)))
       = Some (Return tt (set_pc (pc c + 1) (set_halted true (set_ir HLT c)))).
Proof.
  intros Hh Hpc Hop.
  assert (Hstop : forall fuel' c', halted c' = true ->
            run fuel' c' = Some (Return tt c')).
  { intros [|fuel'] c' Hc'; cbn [run]; by rewrite Hc'. }
  split; [| intros fuel'; by apply Hstop].
  rewrite run_running by done.
  rewrite (cycle_known c HLT process_HLT) by (done || apply branchtable_known).
  unfold bind, process_HLT, modify. rewrite advance_spec. fields.
  change (Z.testbit HLT 4) with false.
  change (Z.land (Z.shiftr HLT 6) 3 + 1) with 1. cbv iota.
  by apply Hstop.
Qed.

Lemma HLT_stops_the_loop_witness :
  run 1 (load [HLT] init)
  = Some (Return tt (set_pc 1 (set_halted true (set_ir HLT (load [HLT] init))))).
Proof.
  apply (HLT_stops_the_loop (load [HLT] init) 0);
    [reflexivity | cbn; lia | reflexivity].
Defined.

(** X8: a JMP through a register that holds the address of the JMP itself
    never ends: whatever the number of iterations allowed, the loop is still
    running when they are used up. *)
Theorem JMP_to_itself_never_ends (c : CPU) (a : Z) (fuel : nat) :
  halted c = false -> 0 <= pc c -> ram c !! Z.to_nat (pc c) = Some JMP ->
  ram c !! Z.to_nat (pc c + 1) = Some a -> 0 <= a ->
  reg c !! Z.to_nat a = Some (pc c) ->
  run fuel c = None
  /\ cycle c = Return tt (set_pc (pc c) (set_ir JMP c)).
Proof.
  intros Hh Hpc Hop Ha Ha0 Hr.
  assert (Hcycle : forall c, 0 <= pc c ->
            ram c !! Z.to_nat (pc c) = Some JMP ->
            ram c !! Z.to_nat (pc c + 1) = Some a ->
            reg c !! Z.to_nat a = Some (pc c) ->
            cycle c = Return tt (set_pc (pc c) (set_ir JMP c))).
  { clear c Hh Hpc Hop Ha Hr. intros c Hpc Hop Ha Hr.
    rewrite (cycle_known c JMP process_JMP) by (done || apply branchtable_known).
    unfold bind. rewrite (process_JMP_spec _ a (pc c)) by (fields; done).
    rewrite advance_spec. reflexivity. }
  split; [| by apply Hcycle].
  revert c Hh Hpc Hop Ha Hr.
  induction fuel as [|fuel IH]; intros c Hh Hpc Hop Ha Hr; cbn [run];
    rewrite Hh; [done |].
  rewrite Hcycle by done. by apply IH.
Qed.

Lemma JMP_to_itself_never_ends_witness :
  run 1000 (set_pc 3 (set_reg [3; 0; 0; 0; 0; 0; 0; 244]
                        (load [LDI; 0; 3; JMP; 0] init))) = None.
Proof.
  apply (JMP_to_itself_never_ends
           (set_pc 3 (set_reg [3; 0; 0; 0; 0; 0; 0; 244]
                        (load [LDI; 0; 3; JMP; 0] init))) 0 1000);
    [reflexivity | cbn; lia | reflexivity | reflexivity | lia | reflexivity].
Defined.

(** * What each handler writes *)

Ltac attr_frame :=
  first [ by intros | intros; hnf in *; cbn; congruence ].

Lemma handlers_same_ram :
  Forall (fun e => e.1 <> PUSH -> e.1 <> CALL -> respects same_ram e.2)
    handlers.
Proof.
  unfold handlers.
  repeat (apply Forall_cons; split); [.. | constructor];
    cbn [fst snd]; intros HP HC;
    try (exfalso; apply HP; reflexivity);
    try (exfalso; apply HC; reflexivity).
  - apply respects_HLT; attr_frame.
  - apply respects_LDI; attr_frame.
  - apply respects_PRN; attr_frame.
  - apply respects_MUL; attr_frame.
  - apply respects_POP; attr_frame.
  - apply respects_RET; attr_frame.
  - apply respects_ADD; attr_frame.
  - apply respects_CMP; attr_frame.
  - apply respects_JMP; attr_frame.
  - apply respects_JEQ; attr_frame.
  - apply respects_JNE; attr_frame.
Qed.

Lemma handlers_same_halted :
  Forall (fun e => e.1 <> HLT -> respects same_halted e.2) handlers.
Proof.
  unfold handlers.
  repeat (apply Forall_cons; split); [.. | constructor];
    cbn [fst snd]; intros HH; try (exfalso; apply HH; reflexivity).
  - apply respects_LDI; attr_frame.
  - apply respects_PRN; attr_frame.
  - apply respects_MUL; attr_frame.
  - apply respects_PUSH; attr_frame.
  - apply respects_POP; attr_frame.
  - apply respects_CALL; attr_frame.
  - apply respects_RET; attr_frame.
  - apply respects_ADD; attr_frame.
  - apply respects_CMP; attr_frame.
  - apply respects_JMP; attr_frame.
  - apply respects_JEQ; attr_frame.
  - apply respects_JNE; attr_frame.
Qed.

Lemma handlers_same_reg :
  Forall (fun e => e.1 ∈ [HLT; PRN; CMP; JMP; JEQ; JNE] ->
                   respects same_reg e.2) handlers.
Proof.
  unfold handlers.
  repeat (apply Forall_cons; split); [.. | constructor];
    cbn [fst snd]; intros Hin;
    try (exfalso; apply list_elem_of_In in Hin; cbn in Hin;
         intuition discriminate).
  - apply respects_HLT; attr_frame.
  - apply respects_PRN; attr_frame.
  - apply respects_CMP; attr_frame.
  - apply respects_JMP; attr_frame.
  - apply respects_JEQ; attr_frame.
  - apply respects_JNE; attr_frame.
Qed.

(** X9: whatever the state and whatever the outcome, a handler of the
    branch table other than PUSH and CALL leaves memory as it is, a handler
    other than HLT leaves [halted] as it is, and HLT, PRN, CMP, JMP, JEQ and
    JNE leave every register as it is. *)
Theorem handlers_write_sets (op : Z) (h : M unit) (c : CPU) :
  branchtable !! op = Some h ->
  (op <> PUSH -> op <> CALL -> ram (state_of (h c)) = ram c)
  /\ (op <> HLT -> halted (state_of (h c)) = halted c)
  /\ (op ∈ [HLT; PRN; CMP; JMP; JEQ; JNE] -> reg (state_of (h c)) = reg c).
Proof.
  intros Hh. split; [| split].
  - intros HP HC.
    exact (branchtable_Forall
             (fun i h => i <> PUSH -> i <> CALL -> respects same_ram h)
             _ _ handlers_same_ram Hh HP HC c).
  - intros HH.
    exact (branchtable_Forall (fun i h => i <> HLT -> respects same_halted h)
             _ _ handlers_same_halted Hh HH c).
  - intros Hin.
    exact (branchtable_Forall
             (fun i h => i ∈ [HLT; PRN; CMP; JMP; JEQ; JNE] ->
                         respects same_reg h)
             _ _ handlers_same_reg Hh Hin c).
Qed.

Lemma handlers_write_sets_witness :
  ram (state_of (process_POP (load [POP; 0] init))) = ram (load [POP; 0] init).
Proof.
  apply (handlers_write_sets POP process_POP (load [POP; 0] init));
    [reflexivity | discriminate | discriminate].
Defined.

(** * The shape of the machine *)

Lemma keeps_wf_refl (c : CPU) : keeps_wf c c.
Proof. by intros H. Qed.

Lemma keeps_wf_trans (c1 c2 c3 : CPU) :
  keeps_wf c1 c2 -> keeps_wf c2 c3 -> keeps_wf c1 c3.
Proof. unfold keeps_wf. auto. Qed.

Lemma keeps_wf_reg (c : CPU) (i v : Z) (l : list Z) :
  list_setitem (reg c) i v = Some l -> keeps_wf c (set_reg l c).
Proof.
  intros Hl [Hram Hreg]. apply list_setitem_length in Hl.
  split; cbn; [done | congruence].
Qed.

Lemma keeps_wf_ram (c : CPU) (i v : Z) (l : list Z) :
  list_setitem (ram c) i (Z.land v 0xFF) = Some l -> keeps_wf c (set_ram l c).
Proof.
  intros Hl [Hram Hreg]. apply list_setitem_length in Hl.
  split; cbn; [congruence | done].
Qed.

Ltac keeps_wf_frame :=
  first [ exact keeps_wf_refl | exact keeps_wf_trans
        | exact keeps_wf_reg | exact keeps_wf_ram
        | unfold keeps_wf, wf; intros; cbn; assumption ].

Lemma handlers_keep_wf : Forall (fun e => respects keeps_wf e.2) handlers.
Proof.
  unfold handlers.
  repeat (apply Forall_cons; split); [.. | constructor]; cbn [snd].
  - apply respects_HLT; keeps_wf_frame.
  - apply respects_LDI; keeps_wf_frame.
  - apply respects_PRN; keeps_wf_frame.
  - apply respects_MUL; keeps_wf_frame.
  - apply respects_PUSH; keeps_wf_frame.
  - apply respects_POP; keeps_wf_frame.
  - apply respects_CALL; keeps_wf_frame.
  - apply respects_RET; keeps_wf_frame.
  - apply respects_ADD; keeps_wf_frame.
  - apply respects_CMP; keeps_wf_frame.
  - apply respects_JMP; keeps_wf_frame.
  - apply respects_JEQ; keeps_wf_frame.
  - apply respects_JNE; keeps_wf_frame.
Qed.

Lemma cycle_keeps_wf : respects keeps_wf cycle.
Proof.
  unfold cycle.
  apply (respects_bind keeps_wf); [keeps_wf_frame | | intros _].
  { unfold fetch.
    apply (respects_bind keeps_wf); [keeps_wf_frame | | intros p].
    { apply (respects_gets keeps_wf). keeps_wf_frame. }
    apply (respects_bind keeps_wf); [keeps_wf_frame | | intros i].
    { apply (respects_ram_read keeps_wf); keeps_wf_frame. }
    apply (respects_modify keeps_wf). keeps_wf_frame. }
  apply (respects_bind keeps_wf); [keeps_wf_frame | | intros _].
  { apply (respects_dispatch keeps_wf); try keeps_wf_frame.
    intros op h Hh.
    exact (branchtable_Forall (fun _ h => respects keeps_wf h) _ _
             handlers_keep_wf Hh). }
  apply respects_advance; keeps_wf_frame.
Qed.

(** X10: whatever integers are loaded, 8-bit or not, the machine keeps its
    shape: in every state the loop reaches, and in the state any run ends
    in, [ram] has 256 cells and [reg] has 8. *)
Theorem machine_shape_is_invariant (program : list Z) :
  (forall c, reachable (load program init) c ->
     length (ram c) = 256%nat /\ length (reg c) = 8%nat)
  /\ (forall fuel o, ls8 fuel program = Some o ->
        length (ram (state_of o)) = 256%nat
        /\ length (reg (state_of o)) = 8%nat).
Proof.
  assert (Hreach : forall c, reachable (load program init) c -> wf c).
  { intros c Hc. induction Hc as [|c Hc IH Hh].
    - split; [| reflexivity]. by rewrite load_length.
    - by apply cycle_keeps_wf. }
  split; [exact Hreach |].
  intros fuel o Ho. apply Hreach.
  eapply run_reachable; [apply reachable_start | exact Ho].
Qed.

Lemma machine_shape_is_invariant_witness :
  length (ram (state_of (cycle (load [LDI; 0; 300] init)))) = 256%nat.
Proof.
  destruct (machine_shape_is_invariant [LDI; 0; 300]) as [H _].
  apply (H (state_of (cycle (load [LDI; 0; 300] init)))).
  apply reachable_cycle; [apply reachable_start | reflexivity].
Defined.

(** * An operand byte past the end of memory *)

Lemma branchtable_PRN : branchtable !! PRN = Some process_PRN.
Proof. reflexivity. Qed.

Lemma branchtable_JMP : branchtable !! JMP = Some process_JMP.
Proof. reflexivity. Qed.

(** X11: an instruction in the last cell has its operand byte at address
    256; the read prints its line and yields -1, and Python's [reg[-1]] is
    register 7.  So there PRN prints the stack pointer (or raises
    [ValueError], the line of the read already printed, when the value has
    more than 4300 digits) and JMP jumps to it: the sentinel is used as a
    register index, nothing stops the cycle. *)
Theorem operand_past_memory_names_R7 (c : CPU) (s : Z) :
  wf c -> pc c = 255 -> reg c !! 7%nat = Some s ->
  op_a c = Return (-1) (set_stdout (stdout c ++ [read_error 256]) c)
  /\ reg_getitem (-1) c = Return s c
  /\ (forall v, reg_setitem (-1) v c = reg_setitem 7 v c)
  /\ (ram c !! 255%nat = Some PRN ->
      (int_str_ok s = true ->
       cycle c
       = Return tt (set_pc 257
                      (set_stdout (stdout c ++ [read_error 256; pretty s])
                         (set_ir PRN c))))
      /\ (int_str_ok s = false ->
          cycle c
          = ValueError (set_stdout (stdout c ++ [read_error 256])
                          (set_ir PRN c))))
  /\ (ram c !! 255%nat = Some JMP ->
      cycle c
      = Return tt (set_pc s
                     (set_stdout (stdout c ++ [read_error 256])
                        (set_ir JMP c)))).
Proof.
  intros [Hram Hreg] Hpc Hs.
  assert (Hop : forall i, op_a (set_ir i c)
            = Return (-1) (set_stdout (stdout c ++ [read_error 256])
                             (set_ir i c))).
  { intros i. unfold op_a. exec. rewrite Hpc.
    rewrite ram_read_out; [reflexivity | fields; rewrite Hram; lia |].
    reflexivity. }
  assert (Hget : forall c', reg c' = reg c -> reg_getitem (-1) c' = Return s c').
  { intros c' Hc'. unfold reg_getitem, list_getitem. rewrite Hc'.
    rewrite py_index_negative by (rewrite Hreg; lia).
    rewrite Hreg. change (Z.to_nat (-1 + Z.of_nat 8)) with 7%nat.
    by rewrite Hs. }
  split; [| split; [by apply Hget | split; [| split]]].
  - specialize (Hop (ir c)). by destruct c.
  - intros v. unfold reg_setitem, list_setitem.
    rewrite py_index_negative, py_index_nonneg by (rewrite Hreg; lia).
    rewrite Hreg. reflexivity.
  - intros Hprn.
    rewrite (cycle_known c PRN process_PRN)
      by (rewrite ?Hpc; done || apply branchtable_PRN).
    split; intros Hok;
      unfold bind at 1; unfold process_PRN, bind at 1; rewrite Hop;
      unfold bind at 1; rewrite Hget by reflexivity; unfold bind at 1.
    + rewrite format_int_ok by done.
      unfold print, modify. rewrite advance_spec. fields.
      change (Z.testbit PRN 4) with false. cbv iota.
      change (Z.land (Z.shiftr PRN 6) 3 + 1) with 2.
      rewrite Hpc, <- app_assoc. reflexivity.
    + by rewrite format_int_huge by done.
  - intros Hjmp.
    rewrite (cycle_known c JMP process_JMP)
      by (rewrite ?Hpc; done || apply branchtable_JMP).
    unfold bind at 1. unfold process_JMP, bind at 1. rewrite Hop.
    unfold bind at 1. rewrite Hget by reflexivity.
    unfold modify. rewrite advance_spec. fields.
    change (Z.testbit JMP 4) with true. reflexivity.
Qed.

Lemma operand_past_memory_names_R7_witness :
  op_a (set_pc 255 init)
  = Return (-1)
      (set_stdout ["Error with read from memory address: 256"]
         (set_pc 255 init)).
Proof.
  apply (operand_past_memory_names_R7 (set_pc 255 init) 244);
    [split; reflexivity | reflexivity | reflexivity].
Defined.

(** * [alu] *)

(** X12: [alu("ADD", a, b)] does to the registers what the ADD handler does
    when its operand bytes are [a] and [b], whatever the outcome (the sum
    is stored unmasked, a bad index raises [IndexError]); any other
    operation name raises the "Unsupported ALU operation" exception and
    leaves the machine as it was. *)
Theorem alu_ADD_agrees_with_handler (c : CPU) (ra rb : Z) :
  operands c ra rb ->
  alu "ADD" ra rb c = AluOutcome (process_ADD c)
  /\ forall op, op <> "ADD" ->
       alu op ra rb c = AluException "Unsupported ALU operation" c.
Proof.
  intros (Hpc & Ha & Hb). split.
  - unfold alu. rewrite decide_True by done. f_equal.
    unfold process_ADD. exec.
    rewrite (ram_read_in _ ra) by (done || lia).
    unfold reg_getitem at 1 3.
    destruct (list_getitem (reg c) ra); [| done].
    by rewrite (ram_read_in _ rb) by (done || lia).
  - intros op Hop. unfold alu. by rewrite decide_False.
Qed.

Lemma alu_ADD_agrees_with_handler_witness :
  alu "ADD" 0 7 (load [ADD; 0; 7] init)
  = AluOutcome (Return tt (set_reg [244; 0; 0; 0; 0; 0; 0; 244]
                             (load [ADD; 0; 7] init))).
Proof.
  destruct (alu_ADD_agrees_with_handler (load [ADD; 0; 7] init) 0 7) as [-> _];
    [repeat split; cbn; lia || reflexivity |].
  reflexivity.
Defined.

(** * [trace] *)







(** * Instructions in sequence *)

Lemma cycle_CMP (c : CPU) (ra rb x y : Z) :
  0 <= pc c -> ram c !! Z.to_nat (pc c) = Some CMP ->
  ram c !! Z.to_nat (pc c + 1) = Some ra ->
  ram c !! Z.to_nat (pc c + 2) = Some rb ->
  0 <= ra -> 0 <= rb ->
  reg c !! Z.to_nat ra = Some x -> reg c !! Z.to_nat rb = Some y ->
  cycle c
  = Return tt (set_pc (pc c + 3)
                 (set_fl (if x <? y then 4 else if x >? y then 2 else 1)
                    (set_ir CMP c))).
Proof.
  intros Hpc Hop Ha Hb Hra Hrb Hx Hy.
  rewrite (cycle_known c CMP process_CMP) by (done || apply branchtable_CMP).
  unfold bind.
  rewrite (process_CMP_spec _ ra rb x y) by (done || (split; done)).
  rewrite advance_spec. reflexivity.
Qed.

Lemma flag_value_is_equal (x y : Z) :
  ((if x <? y then 4 else if x >? y then 2 else 1) =? 1) = (x =? y).
Proof.
  rewrite Z.gtb_ltb.
  destruct (Z.ltb_spec x y), (Z.ltb_spec y x), (Z.eqb_spec x y);
    try lia; reflexivity.
Qed.

(** X14: CMP followed by a conditional jump, as two cycles of the loop:
    after [CMP Ra,Rb; JEQ Rt] PC is the contents of [Rt] when the two
    registers hold equal values and the address after the JEQ otherwise;
    after [CMP Ra,Rb; JNE Rt] it is the other way round.  Memory and
    registers are unchanged. *)
Theorem CMP_then_conditional_jump (c : CPU) (a b t x y target : Z) :
  0 <= pc c -> ram c !! Z.to_nat (pc c) = Some CMP ->
  ram c !! Z.to_nat (pc c + 1) = Some a ->
  ram c !! Z.to_nat (pc c + 2) = Some b ->
  ram c !! Z.to_nat (pc c + 4) = Some t ->
  0 <= a -> 0 <= b -> 0 <= t ->
  reg c !! Z.to_nat a = Some x -> reg c !! Z.to_nat b = Some y ->
  reg c !! Z.to_nat t = Some target ->
  (ram c !! Z.to_nat (pc c + 3) = Some JEQ ->
   exists c2, cycles 2 c = Return tt c2
              /\ pc c2 = (if x =? y then target else pc c + 5)
              /\ ram c2 = ram c /\ reg c2 = reg c)
  /\ (ram c !! Z.to_nat (pc c + 3) = Some JNE ->
      exists c2, cycles 2 c = Return tt c2
                 /\ pc c2 = (if x =? y then pc c + 5 else target)
                 /\ ram c2 = ram c /\ reg c2 = reg c).
Proof.
  intros Hpc Hop Ha Hb Ht Ha0 Hb0 Ht0 Hx Hy Htarget.
  set (f := if x <? y then 4 else if x >? y then 2 else 1).
  set (c1 := set_pc (pc c + 3) (set_fl f (set_ir CMP c))).
  assert (Hc1 : cycle c = Return tt c1) by (by apply (cycle_CMP c a b x y)).
  assert (Ht1 : ram c1 !! Z.to_nat (pc c1 + 1) = Some t).
  { unfold c1. fields. by replace (pc c + 3 + 1) with (pc c + 4) by lia. }
  assert (Hjmp : process_JMP c1 = Return tt (set_pc target c1)).
  { apply (process_JMP_spec c1 t target); unfold c1; fields; done || lia. }
  assert (Hfl : (fl c1 =? 1) = (x =? y)).
  { unfold c1. fields. apply flag_value_is_equal. }
  assert (Hadd : pc c1 + 2 = pc c + 5) by (unfold c1; fields; lia).
  split; intros Hj.
  - exists (set_pc (if x =? y then target else pc c + 5) (set_ir JEQ c1)).
    split; [| by destruct (x =? y)].
    cbn [cycles]. unfold bind at 1. rewrite Hc1.
    unfold bind at 1.
    rewrite (cycle_known c1 JEQ process_JEQ);
      [| unfold c1; fields; lia | done | apply branchtable_JEQ].
    unfold bind at 1. unfold process_JEQ, bind at 1, gets.
    change (fl (set_ir JEQ c1)) with (fl c1). rewrite Hfl.
    destruct (x =? y).
    + rewrite (process_JMP_spec _ t target)
        by (unfold c1; fields; done || lia).
      rewrite advance_spec. reflexivity.
    + exec. rewrite advance_spec. fields.
      change (Z.testbit JEQ 4) with true. cbv iota.
      change (Z.land (Z.shiftr JEQ 6) 3 + 1) with 2.
      change (pc c + 3 + 2) with (pc c1 + 2). by rewrite Hadd.
  - exists (set_pc (if x =? y then pc c + 5 else target) (set_ir JNE c1)).
    split; [| by destruct (x =? y)].
    cbn [cycles]. unfold bind at 1. rewrite Hc1.
    unfold bind at 1.
    rewrite (cycle_known c1 JNE process_JNE);
      [| unfold c1; fields; lia | done | apply branchtable_JNE].
    unfold bind at 1. unfold process_JNE, bind at 1, gets.
    change (fl (set_ir JNE c1)) with (fl c1). rewrite Hfl.
    destruct (x =? y); cbn [negb].
    + exec. rewrite advance_spec. fields.
      change (Z.testbit JNE 4) with true. cbv iota.
      change (Z.land (Z.shiftr JNE 6) 3 + 1) with 2.
      change (pc c + 3 + 2) with (pc c1 + 2). by rewrite Hadd.
    + rewrite (process_JMP_spec _ t target)
        by (unfold c1; fields; done || lia).
      rewrite advance_spec. reflexivity.
Qed.

Lemma CMP_then_conditional_jump_witness :
  exists c2,
    cycles 2 (set_pc 6 (set_reg [11; 11; 0; 0; 0; 0; 0; 244]
                          (load cmp_jeq_program init))) = Return tt c2
    /\ pc c2 = 11.
Proof.
  destruct (CMP_then_conditional_jump
              (set_pc 6 (set_reg [11; 11; 0; 0; 0; 0; 0; 244]
                           (load cmp_jeq_program init))) 0 1 0 11 11 11)
    as [H _]; try reflexivity; try lia; [cbn; lia |].
  destruct (H eq_refl) as (c2 & Hc & Hpc & _).
  exists c2. split; [exact Hc | exact Hpc].
Defined.

Lemma cycle_LDI (c : CPU) (r v : Z) :
  0 <= pc c -> ram c !! Z.to_nat (pc c) = Some LDI ->
  ram c !! Z.to_nat (pc c + 1) = Some r ->
  ram c !! Z.to_nat (pc c + 2) = Some v ->
  0 <= r < Z.of_nat (length (reg c)) ->
  cycle c
  = Return tt (set_pc (pc c + 3)
                 (set_reg (<[Z.to_nat r := v]> (reg c)) (set_ir LDI c))).
Proof.
  intros Hpc Hop Hr Hv Hr0.
  rewrite (cycle_known c LDI process_LDI) by (done || apply branchtable_known).
  unfold bind at 1. unfold process_LDI. exec.
  rewrite (ram_read_in _ v), (ram_read_in _ r) by (fields; (done || lia)).
  rewrite reg_setitem_insert by (fields; lia).
  rewrite advance_spec. reflexivity.
Qed.

Lemma cycle_MUL (c : CPU) (ra rb x y : Z) :
  0 <= pc c -> ram c !! Z.to_nat (pc c) = Some MUL ->
  ram c !! Z.to_nat (pc c + 1) = Some ra ->
  ram c !! Z.to_nat (pc c + 2) = Some rb ->
  0 <= ra -> 0 <= rb ->
  reg c !! Z.to_nat ra = Some x -> reg c !! Z.to_nat rb = Some y ->
  cycle c
  = Return tt (set_pc (pc c + 3)
                 (set_reg (<[Z.to_nat ra := x * y]> (reg c)) (set_ir MUL c))).
Proof.
  intros Hpc Hop Ha Hb Hra Hrb Hx Hy.
  rewrite (cycle_known c MUL process_MUL) by (done || apply branchtable_known).
  unfold bind.
  rewrite (process_MUL_spec _ ra rb x y) by (done || (split; done)).
  rewrite advance_spec. reflexivity.
Qed.

Lemma cycle_PRN (c : CPU) (r v : Z) :
  0 <= pc c -> ram c !! Z.to_nat (pc c) = Some PRN ->
  ram c !! Z.to_nat (pc c + 1) = Some r -> 0 <= r ->
  reg c !! Z.to_nat r = Some v -> int_str_ok v = true ->
  cycle c
  = Return tt (set_pc (pc c + 2)
                 (set_stdout (stdout c ++ [pretty v]) (set_ir PRN c))).
Proof.
  intros Hpc Hop Hr Hr0 Hv Hok.
  rewrite (cycle_known c PRN process_PRN) by (done || apply branchtable_PRN).
  unfold bind at 1. unfold process_PRN. exec.
  rewrite (ram_read_in _ r) by (fields; (done || lia)).
  rewrite (reg_getitem_lookup r v) by (fields; done).
  rewrite format_int_ok by done.
  rewrite advance_spec. reflexivity.
Qed.

Lemma cycle_PRN_huge (c : CPU) (r v : Z) :
  0 <= pc c -> ram c !! Z.to_nat (pc c) = Some PRN ->
  ram c !! Z.to_nat (pc c + 1) = Some r -> 0 <= r ->
  reg c !! Z.to_nat r = Some v -> int_str_ok v = false ->
  cycle c = ValueError (set_ir PRN c).
Proof.
  intros Hpc Hop Hr Hr0 Hv Hok.
  rewrite (cycle_known c PRN process_PRN) by (done || apply branchtable_PRN).
  unfold bind at 1. unfold process_PRN. exec.
  rewrite (ram_read_in _ r) by (fields; (done || lia)).
  rewrite (reg_getitem_lookup r v) by (fields; done).
  by rewrite format_int_huge by done.
Qed.

Lemma cycle_HLT (c : CPU) :
  0 <= pc c -> ram c !! Z.to_nat (pc c) = Some HLT ->
  cycle c = Return tt (set_pc (pc c + 1) (set_halted true (set_ir HLT c))).
Proof.
  intros Hpc Hop.
  rewrite (cycle_known c HLT process_HLT) by (done || apply branchtable_known).
  unfold bind, process_HLT, modify. rewrite advance_spec. reflexivity.
Qed.

(** X15: for all integers [a] and [b], the program
    [LDI R0,a; LDI R1,b; MUL R0,R1; PRN R0; HLT] run from a fresh machine
    leaves the exact product in R0, whatever its size.  When the product
    has at most 4300 decimal digits the run prints the one line [a * b] in
    decimal and returns normally, halted, after five cycles and with any
    larger number of iterations allowed.  Otherwise PRN raises
    [ValueError]: the run ends in the fourth cycle with nothing printed. *)
Theorem multiply_program_prints_product (a b : Z) (k : nat) :
  (int_str_ok (a * b) = true ->
   exists c,
     ls8 (5 + k) [LDI; 0; a; LDI; 1; b; MUL; 0; 1; PRN; 0; HLT]
     = Some (Return tt c)
     /\ report (Return tt c) = (0, [pretty (a * b)])
     /\ halted c = true /\ pc c = 12
     /\ reg c = [a * b; b; 0; 0; 0; 0; 0; 244])
  /\ (int_str_ok (a * b) = false ->
      exists c,
        ls8 (4 + k) [LDI; 0; a; LDI; 1; b; MUL; 0; 1; PRN; 0; HLT]
        = Some (ValueError c)
        /\ report (@ValueError unit c) = (1, [])
        /\ halted c = false /\ pc c = 9
        /\ reg c = [a * b; b; 0; 0; 0; 0; 0; 244])
  /\ int_str_ok (a * b) = (Z.abs (a * b) <? 10 ^ max_str_digits).
Proof.
  unfold ls8.
  set (c0 := load [LDI; 0; a; LDI; 1; b; MUL; 0; 1; PRN; 0; HLT] init).
  set (c1 := set_pc 3 (set_reg [a; 0; 0; 0; 0; 0; 0; 244] (set_ir LDI c0))).
  set (c2 := set_pc 6 (set_reg [a; b; 0; 0; 0; 0; 0; 244] (set_ir LDI c1))).
  set (c3 := set_pc 9 (set_reg [a * b; b; 0; 0; 0; 0; 0; 244]
                         (set_ir MUL c2))).
  set (c4 := set_pc 11 (set_stdout [pretty (a * b)] (set_ir PRN c3))).
  set (c5 := set_pc 12 (set_halted true (set_ir HLT c4))).
  assert (H1 : cycle c0 = Return tt c1)
    by (rewrite (cycle_LDI c0 0 a); first [reflexivity | cbn; lia]).
  assert (H2 : cycle c1 = Return tt c2)
    by (rewrite (cycle_LDI c1 1 b); first [reflexivity | cbn; lia]).
  assert (H3 : cycle c2 = Return tt c3)
    by (rewrite (cycle_MUL c2 0 1 a b); first [reflexivity | cbn; lia]).
  split; [| split; [| apply int_str_ok_spec]]; intros Hok.
  - assert (H4 : cycle c3 = Return tt c4)
      by (rewrite (cycle_PRN c3 0 (a * b));
          first [reflexivity | exact Hok | cbn; lia]).
    assert (H5 : cycle c4 = Return tt c5)
      by (rewrite (cycle_HLT c4); first [reflexivity | cbn; lia]).
    exists c5. split; [| repeat split].
    change (5 + k)%nat with (S (S (S (S (S k))))).
    rewrite run_running, H1 by reflexivity.
    rewrite run_running, H2 by reflexivity.
    rewrite run_running, H3 by reflexivity.
    rewrite run_running, H4 by reflexivity.
    rewrite run_running, H5 by reflexivity.
    destruct k; reflexivity.
  - assert (H4 : cycle c3 = ValueError (set_ir PRN c3))
      by (rewrite (cycle_PRN_huge c3 0 (a * b));
          first [reflexivity | exact Hok | cbn; lia]).
    exists (set_ir PRN c3). split; [| repeat split].
    change (4 + k)%nat with (S (S (S (S k)))).
    rewrite run_running, H1 by reflexivity.
    rewrite run_running, H2 by reflexivity.
    rewrite run_running, H3 by reflexivity.
    rewrite run_running, H4 by reflexivity.
    reflexivity.
Qed.

Lemma multiply_program_prints_product_witness :
  exists c,
    ls8 5 [LDI; 0; 8; LDI; 1; 9; MUL; 0; 1; PRN; 0; HLT] = Some (Return tt c)
    /\ report (Return tt c) = (0, ["72"]).
Proof.
  destruct (multiply_program_prints_product 8 9 0) as [H _].
  destruct (H eq_refl) as (c & Hc & Hrep & _).
  exists c. split; [exact Hc | exact Hrep].
Defined.

(** * The stack is last in, first out *)

Lemma cycle_PUSH (c : CPU) (r v s : Z) :
  wf c -> 0 <= pc c -> ram c !! Z.to_nat (pc c) = Some PUSH ->
  ram c !! Z.to_nat (pc c + 1) = Some r -> 0 <= r ->
  reg c !! 7%nat = Some s ->
  <[7%nat := Z.land (s - 1) 0xFF]> (reg c) !! Z.to_nat r = Some v ->
  cycle c
  = Return tt
      (set_pc (pc c + 2)
         (set_ram (<[Z.to_nat (Z.land (s - 1) 0xFF) := Z.land v 0xFF]> (ram c))
            (set_mdr v (set_reg (<[7%nat := Z.land (s - 1) 0xFF]> (reg c))
                          (set_ir PUSH c))))).
Proof.
  intros Hwf Hpc Hop Hr Hr0 Hs Hv.
  rewrite (cycle_known c PUSH process_PUSH) by (done || apply branchtable_known).
  unfold bind.
  rewrite (process_PUSH_spec _ r v s) by first [exact Hwf | fields; done].
  rewrite advance_spec. reflexivity.
Qed.

Lemma cycle_POP (c : CPU) (r x s s' : Z) :
  wf c -> 0 <= pc c -> ram c !! Z.to_nat (pc c) = Some POP ->
  ram c !! Z.to_nat (pc c + 1) = Some r -> 0 <= r < 8 ->
  reg c !! 7%nat = Some s -> 0 <= s -> ram c !! Z.to_nat s = Some x ->
  <[Z.to_nat r := x]> (reg c) !! 7%nat = Some s' ->
  cycle c
  = Return tt
      (set_pc (pc c + 2)
         (set_reg (<[7%nat := Z.land (s' + 1) 0xFF]>
                     (<[Z.to_nat r := x]> (reg c)))
            (set_mdr x (set_ir POP c)))).
Proof.
  intros Hwf Hpc Hop Hr Hr0 Hs Hs0 Hx Hs'.
  rewrite (cycle_known c POP process_POP) by (done || apply branchtable_known).
  unfold bind.
  rewrite (process_POP_spec _ r x s s') by first [exact Hwf | fields; done].
  rewrite advance_spec. reflexivity.
Qed.

(** X16: two pushes followed by two pops, run as four cycles with the code
    away from the two stack cells used: [PUSH Ra; PUSH Rb; POP Rc; POP Rd]
    (general registers, SP between 2 and 255) leaves in [Rd] the value [Ra]
    held and in [Rc] the value [Rb] held, both modulo 256, with SP back at
    its initial value and PC after the four instructions. *)
Theorem stack_is_last_in_first_out (c : CPU) (ra rb rc rd a b s : Z) :
  wf c -> 0 <= pc c ->
  ram c !! Z.to_nat (pc c) = Some PUSH ->
  ram c !! Z.to_nat (pc c + 1) = Some ra ->
  ram c !! Z.to_nat (pc c + 2) = Some PUSH ->
  ram c !! Z.to_nat (pc c + 3) = Some rb ->
  ram c !! Z.to_nat (pc c + 4) = Some POP ->
  ram c !! Z.to_nat (pc c + 5) = Some rc ->
  ram c !! Z.to_nat (pc c + 6) = Some POP ->
  ram c !! Z.to_nat (pc c + 7) = Some rd ->
  0 <= ra < 7 -> 0 <= rb < 7 -> 0 <= rc < 7 -> 0 <= rd < 7 ->
  reg c !! Z.to_nat ra = Some a -> reg c !! Z.to_nat rb = Some b ->
  reg c !! 7%nat = Some s -> 2 <= s < 256 ->
  s - 1 < pc c \/ pc c + 7 < s - 2 ->
  exists c4,
    cycles 4 c = Return tt c4
    /\ reg c4 !! Z.to_nat rd = Some (a mod 256)
    /\ (rc <> rd -> reg c4 !! Z.to_nat rc = Some (b mod 256))
    /\ reg c4 !! 7%nat = Some s
    /\ pc c4 = pc c + 8.
Proof.
  intros Hwf Hpc H0 H1 H2 H3 H4 H5 H6 H7 Hra Hrb Hrc Hrd Ha Hb Hs Hs8 Hdis.
  pose proof Hwf as [Hram Hreg].
  assert (Hm1 : Z.land (s - 1) 0xFF = s - 1)
    by (rewrite land_255_mod; apply Z.mod_small; lia).
  assert (Hm2 : Z.land (s - 1 - 1) 0xFF = s - 2)
    by (rewrite land_255_mod, Z.mod_small by lia; lia).
  assert (Hm3 : Z.land (s - 2 + 1) 0xFF = s - 1)
    by (rewrite land_255_mod, Z.mod_small by lia; lia).
  assert (Hm4 : Z.land (s - 1 + 1) 0xFF = s)
    by (rewrite land_255_mod, Z.mod_small by lia; lia).
  (* first PUSH *)
  set (reg1 := <[7%nat := s - 1]> (reg c)).
  set (ram1 := <[Z.to_nat (s - 1) := Z.land a 0xFF]> (ram c)).
  set (c1 := set_pc (pc c + 2)
               (set_ram ram1 (set_mdr a (set_reg reg1 (set_ir PUSH c))))).
  assert (Hc1 : cycle c = Return tt c1).
  { rewrite (cycle_PUSH c ra a s); try done; try lia.
    - by rewrite Hm1.
    - rewrite Hm1. by rewrite list_lookup_insert_ne by lia. }
  assert (Hcode1 : forall k, 0 <= k <= 7 ->
            ram1 !! Z.to_nat (pc c + k) = ram c !! Z.to_nat (pc c + k)).
  { intros k Hk. unfold ram1. apply list_lookup_insert_ne. lia. }
  (* second PUSH *)
  set (reg2 := <[7%nat := s - 2]> reg1).
  set (ram2 := <[Z.to_nat (s - 2) := Z.land b 0xFF]> ram1).
  set (c2 := set_pc (pc c + 4)
               (set_ram ram2 (set_mdr b (set_reg reg2 (set_ir PUSH c1))))).
  assert (Hc2 : cycle c1 = Return tt c2).
  { rewrite (cycle_PUSH c1 rb b (s - 1)); unfold c1; fields.
    - rewrite Hm2. unfold c2, c1. f_equal. f_equal. lia.
    - split; fields; unfold ram1, reg1; by rewrite length_insert.
    - lia.
    - replace (pc c + 2) with (pc c + 2) by lia. by rewrite Hcode1 by lia.
    - replace (pc c + 2 + 1) with (pc c + 3) by lia. by rewrite Hcode1 by lia.
    - lia.
    - unfold reg1. apply list_lookup_insert_eq. rewrite Hreg. lia.
    - rewrite Hm2. rewrite list_lookup_insert_ne by lia.
      unfold reg1. by rewrite list_lookup_insert_ne by lia. }
  assert (Hcode2 : forall k, 0 <= k <= 7 ->
            ram2 !! Z.to_nat (pc c + k) = ram c !! Z.to_nat (pc c + k)).
  { intros k Hk. unfold ram2. rewrite list_lookup_insert_ne by lia.
    by apply Hcode1. }
  assert (Hlen2 : length ram2 = 256%nat /\ length reg2 = 8%nat).
  { unfold ram2, ram1, reg2, reg1. by rewrite !length_insert. }
  destruct Hlen2 as [Hram2 Hreg2].
  (* first POP *)
  set (reg3 := <[7%nat := s - 1]> (<[Z.to_nat rc := Z.land b 0xFF]> reg2)).
  set (c3 := set_pc (pc c + 6)
               (set_reg reg3 (set_mdr (Z.land b 0xFF) (set_ir POP c2)))).
  assert (Hc3 : cycle c2 = Return tt c3).
  { rewrite (cycle_POP c2 rc (Z.land b 0xFF) (s - 2) (s - 2)); unfold c2; fields.
    - rewrite Hm3. unfold c3, c2. f_equal. f_equal. lia.
    - by split.
    - lia.
    - by rewrite Hcode2 by lia.
    - replace (pc c + 4 + 1) with (pc c + 5) by lia. by rewrite Hcode2 by lia.
    - lia.
    - unfold reg2. apply list_lookup_insert_eq.
      unfold reg1. rewrite length_insert, Hreg. lia.
    - lia.
    - unfold ram2. apply list_lookup_insert_eq.
      unfold ram1. rewrite length_insert, Hram. lia.
    - rewrite list_lookup_insert_ne by lia.
      unfold reg2. apply list_lookup_insert_eq.
      unfold reg1. rewrite length_insert, Hreg. lia. }
  assert (Hreg3 : length reg3 = 8%nat)
    by (unfold reg3; by rewrite !length_insert).
  (* second POP *)
  set (reg4 := <[7%nat := s]> (<[Z.to_nat rd := Z.land a 0xFF]> reg3)).
  set (c4 := set_pc (pc c + 8)
               (set_reg reg4 (set_mdr (Z.land a 0xFF) (set_ir POP c3)))).
  assert (Hc4 : cycle c3 = Return tt c4).
  { rewrite (cycle_POP c3 rd (Z.land a 0xFF) (s - 1) (s - 1));
      unfold c3, c2; fields.
    - rewrite Hm4. unfold c4, c3, c2. f_equal. f_equal. lia.
    - by split.
    - lia.
    - by rewrite Hcode2 by lia.
    - replace (pc c + 6 + 1) with (pc c + 7) by lia. by rewrite Hcode2 by lia.
    - lia.
    - unfold reg3. apply list_lookup_insert_eq.
      rewrite length_insert, Hreg2. lia.
    - lia.
    - unfold ram2. rewrite list_lookup_insert_ne by lia.
      unfold ram1. apply list_lookup_insert_eq. rewrite Hram. lia.
    - rewrite list_lookup_insert_ne by lia.
      unfold reg3. apply list_lookup_insert_eq.
      rewrite length_insert, Hreg2. lia. }
  exists c4. split; [| split; [| split; [| split]]].
  - cbn [cycles]. unfold bind. by rewrite Hc1, Hc2, Hc3, Hc4.
  - unfold c4. fields. unfold reg4. rewrite list_lookup_insert_ne by lia.
    rewrite land_255_mod. apply list_lookup_insert_eq. rewrite Hreg3. lia.
  - intros Hne. unfold c4. fields. unfold reg4.
    rewrite !list_lookup_insert_ne by lia.
    unfold reg3. rewrite list_lookup_insert_ne by lia.
    rewrite land_255_mod. apply list_lookup_insert_eq. rewrite Hreg2. lia.
  - unfold c4. fields. unfold reg4. apply list_lookup_insert_eq.
    rewrite length_insert, Hreg3. lia.
  - reflexivity.
Qed.

Lemma stack_is_last_in_first_out_witness :
  exists c4,
    cycles 4 (set_reg [10; 20; 0; 0; 0; 0; 0; 244]
                (load [PUSH; 0; PUSH; 1; POP; 2; POP; 3] init)) = Return tt c4
    /\ reg c4 !! 3%nat = Some 10 /\ reg c4 !! 2%nat = Some 20
    /\ reg c4 !! 7%nat = Some 244.
Proof.
  destruct (stack_is_last_in_first_out
              (set_reg [10; 20; 0; 0; 0; 0; 0; 244]
                 (load [PUSH; 0; PUSH; 1; POP; 2; POP; 3] init))
              0 1 2 3 10 20 244)
    as (c4 & Hc & Hd & Hcc & Hsp & _);
    try reflexivity; try lia;
    try (split; reflexivity); try (cbn; lia); try (right; cbn; lia).
  exists c4. split; [exact Hc |]. split; [exact Hd |].
  split; [apply Hcc; lia | exact Hsp].
Defined.
